(** * go-wiki: the page-rendering pipeline, persistence and routing

    A shallow embedding of the three variants of the wiki server

    - [part_001]: [Page], [save], [loadPage] only;
    - [wiki.go]: the handlers without inter-page links;
    - [part_000]: the handlers with inter-page links, the index redirect
      and the static file server,

    together with the parts of Go's standard library they call
    ([regexp], [html/template.HTMLEscapeString], [io/ioutil], [net/http]),
    modelled from the library's documented behaviour. *)

From Stdlib Require Import FunInd Recdef Ascii String.
From stdpp Require Import gmap strings list fin_maps.
Import Ascii.

Local Open Scope char_scope.
Local Open Scope nat_scope.
Local Open Scope list_scope.

(** ** Byte strings

    Go's [string] and [[]byte] are both sequences of bytes and the
    conversions [string(b)] and [[]byte(s)] copy the bytes unchanged, so
    both are lists of 8-bit characters here. *)

Abbreviation bytes := (list ascii).

(** A string literal of the source as a byte sequence. *)
Definition str (s : string) : bytes := list_ascii_of_string s.
Arguments str s%_string.

(** The double quote, which cannot be written inside a literal. *)
Definition dquote : ascii := "034".

(** ** Regular expressions ([regexp])

    The syntax tree of the patterns the program compiles.  [Lit] is a
    literal byte, [Class] a bracket expression given by its ranges,
    [Cap n] the [n]-th capturing group, [Bol] and [Eol] are [^] and [$]
    (without the multi-line flag: beginning and end of the text).

    The library matches runes, not bytes.  The two patterns of the program
    name ASCII characters only, and a byte below 128 is never part of the
    encoding of another rune, so matching them byte by byte finds the same
    spans. *)

Inductive regex : Type :=
| Lit (c : ascii)
| Class (ranges : list (ascii * ascii))
| Cat (r1 r2 : regex)
| Alt (r1 r2 : regex)
| Plus (r : regex)
| Cap (n : nat) (r : regex)
| Bol
| Eol.

Definition in_range (c : ascii) (rg : ascii * ascii) : bool :=
  Ascii.leb (fst rg) c && Ascii.leb c (snd rg).

Definition in_class (ranges : list (ascii * ascii)) (c : ascii) : bool :=
  existsb (in_range c) ranges.

(** The literal word [w] as a pattern (for alternatives such as [edit]). *)
Fixpoint word (c : ascii) (w : bytes) : regex :=
  match w with
  | [] => Lit c
  | c' :: w' => Cat (Lit c) (word c' w')
  end.

(** A thread of the matcher: the offset [pos] in the text, the text that
    remains from there, and the groups captured so far (latest first). *)
Definition captures := list (nat * bytes).

Record thread : Type := mkThread {
  th_pos : nat;
  th_rest : bytes;
  th_caps : captures
}.

(** The matcher is a backtracking one, in continuation-passing style: a
    continuation receives the state after a partial match and answers with
    the final thread, or [None] to ask for the next alternative. *)
Definition cont : Type := nat -> bytes -> captures -> option thread.

(** The iterations of [+] over a body matched by [m]: one iteration, then
    as many more as possible before the continuation is tried (greedy).
    The loop stops iterating when an iteration consumes nothing; the fuel
    it is started with, one more than the length of the remaining text, is
    therefore never exhausted. *)
Fixpoint plus_loop (m : nat -> bytes -> captures -> cont -> option thread) (k : cont)
    (fuel : nat) (pos : nat) (s : bytes) (c : captures) {struct fuel} : option thread :=
  match fuel with
  | O => None
  | S fuel' =>
      m pos s c (fun pos' s' c' =>
        if length s' <? length s then
          match plus_loop m k fuel' pos' s' c' with
          | Some t => Some t
          | None => k pos' s' c'
          end
        else k pos' s' c')
  end.

(** Alternatives are tried left to right and [+] is greedy, which is the
    leftmost-first preference order of Go's [regexp]. *)
Fixpoint step (r : regex) (pos : nat) (s : bytes) (c : captures) (k : cont)
    {struct r} : option thread :=
  match r with
  | Lit b =>
      match s with
      | x :: s' => if Ascii.eqb x b then k (S pos) s' c else None
      | [] => None
      end
  | Class ranges =>
      match s with
      | x :: s' => if in_class ranges x then k (S pos) s' c else None
      | [] => None
      end
  | Cat r1 r2 =>
      step r1 pos s c (fun pos' s' c' => step r2 pos' s' c' k)
  | Alt r1 r2 =>
      match step r1 pos s c k with
      | Some t => Some t
      | None => step r2 pos s c k
      end
  | Plus r1 => plus_loop (step r1) k (S (length s)) pos s c
  | Cap n r1 =>
      step r1 pos s c (fun pos' s' c' =>
        k pos' s' ((n, take (pos' - pos) s) :: c'))
  | Bol => if pos =? 0 then k pos s c else None
  | Eol => match s with [] => k pos s c | _ :: _ => None end
  end.

(** A match of [r] that starts exactly at offset [pos], where [s] is the
    text from [pos] on. *)
Definition exec (r : regex) (pos : nat) (s : bytes) : option thread :=
  step r pos s [] (fun pos' s' c' => Some (mkThread pos' s' c')).

(** Number of capturing groups ([NumSubexp]). *)
Fixpoint num_subexp (r : regex) : nat :=
  match r with
  | Lit _ | Class _ | Bol | Eol => 0
  | Cat r1 r2 | Alt r1 r2 => num_subexp r1 + num_subexp r2
  | Plus r1 => num_subexp r1
  | Cap _ r1 => S (num_subexp r1)
  end.

Fixpoint lookup_cap (n : nat) (c : captures) : bytes :=
  match c with
  | [] => []
  | (m, v) :: c' => if n =? m then v else lookup_cap n c'
  end.

(** The slice a match returns: the whole match at index 0, then the text
    of each group (empty when the group took no part in the match). *)
Definition submatches (r : regex) (pos : nat) (s : bytes) (t : thread) : list bytes :=
  take (th_pos t - pos) s ::
  map (fun n => lookup_cap n (th_caps t)) (seq 1 (num_subexp r)).

(** The leftmost match at or after [pos]. *)
Fixpoint find_from (r : regex) (pos : nat) (s : bytes) : option (list bytes) :=
  match exec r pos s with
  | Some t => Some (submatches r pos s t)
  | None =>
      match s with
      | [] => None
      | _ :: s' => find_from r (S pos) s'
      end
  end.

(** [re.FindStringSubmatch(s)]: [None] is the nil slice. *)
Definition FindStringSubmatch (r : regex) (s : bytes) : option (list bytes) :=
  find_from r 0 s.

(** The pieces of a text cut by the successive matches of a pattern: a
    byte outside every match, or the span of one match. *)
Inductive piece : Type :=
| PByte (c : ascii)
| PMatch (span : bytes).

(** The scan of [ReplaceAll]: the leftmost match, then the leftmost match
    after its end, and so on.  A pattern that can match the empty string
    is outside this model (the two patterns of the program cannot): an
    empty match is passed over like a failure to match. *)
Function scan (r : regex) (pos : nat) (s : bytes) {measure length s} : list piece :=
  match s with
  | [] => []
  | c :: s' =>
      match exec r pos s with
      | Some t =>
          if length (th_rest t) <? length s
          then PMatch (take (length s - length (th_rest t)) s)
                 :: scan r (pos + (length s - length (th_rest t))) (th_rest t)
          else PByte c :: scan r (S pos) s'
      | None => PByte c :: scan r (S pos) s'
      end
  end.
Proof.
  - intros r pos s c s' Hs t Hexec Hlt. apply Nat.ltb_lt in Hlt. exact Hlt.
  - intros r pos s c s' Hs t Hexec Hlt. simpl. lia.
  - intros r pos s c s' Hs Hexec. simpl. lia.
Defined.

(** [re.ReplaceAllFunc(src, repl)]: every match is replaced by what the
    callback returns for its span; a panic of the callback ([None])
    propagates. *)
Fixpoint splice (repl : bytes -> option bytes) (ps : list piece) : option bytes :=
  match ps with
  | [] => Some []
  | PByte c :: ps' => option_map (cons c) (splice repl ps')
  | PMatch span :: ps' =>
      match repl span with
      | Some out => option_map (app out) (splice repl ps')
      | None => None
      end
  end.

Definition ReplaceAllFunc (r : regex) (src : bytes) (repl : bytes -> option bytes)
  : option bytes :=
  splice repl (scan r 0 src).

(** ** The patterns of the program *)

Definition alnum_ranges : list (ascii * ascii) :=
  [("a", "z"); ("A", "Z"); ("0", "9")].

(** [[a-zA-Z0-9]] *)
Definition alnum : regex := Class alnum_ranges.

(** [validPath = regexp.MustCompile("^/(edit|save|view)/([a-zA-Z0-9]+)$")] *)
Definition validPath : regex :=
  Cat Bol
   (Cat (Lit "/")
    (Cat (Cap 1 (Alt (word "e" (str "dit"))
                (Alt (word "s" (str "ave")) (word "v" (str "iew")))))
     (Cat (Lit "/")
      (Cat (Cap 2 (Plus alnum)) Eol)))).

(** [linkPath = regexp.MustCompile("\\[([a-zA-Z0-9]+)\\]")] *)
Definition linkPath : regex :=
  Cat (Lit "[") (Cat (Cap 1 (Plus alnum)) (Lit "]")).

(** ** HTML escaping ([html/template.HTMLEscapeString])

    The five characters that are significant in HTML become entities and
    the NUL byte becomes U+FFFD (in UTF-8); every other byte is copied. *)
Definition htmlEscapeByte (c : ascii) : bytes :=
  if Ascii.eqb c "000" then ["239"; "191"; "189"]
  else if Ascii.eqb c dquote then str "&#34;"
  else if Ascii.eqb c "'" then str "&#39;"
  else if Ascii.eqb c "&" then str "&amp;"
  else if Ascii.eqb c "<" then str "&lt;"
  else if Ascii.eqb c ">" then str "&gt;"
  else [c].

Definition HTMLEscapeString (s : bytes) : bytes :=
  flat_map htmlEscapeByte s.

(** ** The renderer (lines 77 to 83 of [viewHandler]) *)

(** Indexing a slice, [m[i]]: out of range is a run-time panic, [None]
    here. *)
Definition index {A} (l : list A) (i : nat) : option A := l !! i.

(** Line 81: the anchor built around a title. *)
Definition anchor (title : bytes) : bytes :=
  str "<a href=" ++ [dquote] ++ str "/view/" ++ title ++ [dquote] ++ str ">"
    ++ title ++ str "</a>".

(** The callback given to [ReplaceAllFunc] (lines 79 to 83): it matches the
    span again to read the title in [matched[1]], and builds the anchor. *)
Definition linkRepl (span : bytes) : option bytes :=
  match FindStringSubmatch linkPath span with
  | None => None
  | Some matched =>
      match index matched 1 with
      | Some title => Some (anchor title)
      | None => None
      end
  end.

(** The display body computed from the raw body. *)
Definition render (body : bytes) : option bytes :=
  let escapedBody := HTMLEscapeString body in
  ReplaceAllFunc linkPath escapedBody linkRepl.

(** ** The marker grammar, in the words of the specification

    A marker is the character [[], one or more characters of
    [{a-z, A-Z, 0-9}], and the character []]. *)

(** Membership in [{a-z, A-Z, 0-9}], by character code. *)
Definition is_alnum (c : ascii) : bool :=
  let n := nat_of_ascii c in
  (97 <=? n) && (n <=? 122) || (65 <=? n) && (n <=? 90)
  || (48 <=? n) && (n <=? 57).

Definition is_title (title : bytes) : Prop :=
  title <> [] /\ Forall (fun c => is_alnum c = true) title.

Definition marker (title : bytes) : bytes := "[" :: title ++ ["]"].

Definition starts_with_marker (s : bytes) : Prop :=
  exists title rest, is_title title /\ s = marker title ++ rest.

(** A text read from left to right: the markers, which do not overlap,
    and the bytes that belong to no marker. *)
Inductive token : Type :=
| TByte (c : ascii)
| TMarker (title : bytes).

Inductive tokens : bytes -> list token -> Prop :=
| tokens_nil : tokens [] []
| tokens_marker title rest toks :
    is_title title -> tokens rest toks ->
    tokens (marker title ++ rest) (TMarker title :: toks)
| tokens_byte c s toks :
    ~ starts_with_marker (c :: s) -> tokens s toks ->
    tokens (c :: s) (TByte c :: toks).

(** The text a token stands for, and the piece the scan cuts for it. *)
Definition token_src (t : token) : bytes :=
  match t with
  | TByte c => [c]
  | TMarker title => marker title
  end.

Definition token_piece (t : token) : piece :=
  match t with
  | TByte c => PByte c
  | TMarker title => PMatch (marker title)
  end.

(** What the renderer puts for a token of the escaped text. *)
Definition token_html (t : token) : bytes :=
  match t with
  | TByte c => [c]
  | TMarker title => anchor title
  end.

(** What the renderer puts for a token of the raw text. *)
Definition token_render (t : token) : bytes :=
  match t with
  | TByte c => htmlEscapeByte c
  | TMarker title => anchor title
  end.

(** A token of the raw text, read again after escaping: the bytes of an
    entity are tokens of their own, a marker stays a marker. *)
Definition token_escape (t : token) : list token :=
  match t with
  | TByte c => map TByte (htmlEscapeByte c)
  | TMarker title => [TMarker title]
  end.

(** The characters that open or close markup, or delimit an attribute. *)
Definition is_markup (c : ascii) : bool :=
  Ascii.eqb c "<" || Ascii.eqb c ">" || Ascii.eqb c dquote || Ascii.eqb c "'".

(** The characters that escaping replaces, and what it puts for them. *)
Definition is_special (c : ascii) : bool :=
  is_markup c || Ascii.eqb c "&" || Ascii.eqb c "000".

Definition entities : list bytes :=
  [str "&#34;"; str "&#39;"; str "&amp;"; str "&lt;"; str "&gt;";
   ["239"; "191"; "189"]].

(** A path the router accepts, in the words of the specification. *)
Definition routes : list bytes := [str "edit"; str "save"; str "view"].

Definition routed (path title : bytes) : Prop :=
  exists verb, verb ∈ routes /\ is_title title
               /\ path = "/" :: verb ++ "/" :: title.

(** ** Closed forms of the two patterns

    What the matcher computes for [linkPath] and [validPath], written by
    recursion on the text; the properties below relate them to the matcher
    on one side and to the grammar on the other. *)

(** The longest run of characters of a class at the head of a text, and
    what follows it. *)
Fixpoint class_run (ranges : list (ascii * ascii)) (s : bytes) : bytes * bytes :=
  match s with
  | [] => ([], [])
  | x :: s' =>
      if in_class ranges x
      then let (t, rest) := class_run ranges s' in (x :: t, rest)
      else ([], s)
  end.

(** The loop of [+] over a character class, by recursion on the text. *)
Fixpoint greedy (ranges : list (ascii * ascii)) (k : cont)
    (pos : nat) (s : bytes) (c : captures) : option thread :=
  match s with
  | [] => None
  | x :: s' =>
      if in_class ranges x then
        match greedy ranges k (S pos) s' c with
        | Some t => Some t
        | None => k (S pos) s' c
        end
      else None
  end.

(** The marker at the head of a text: its title and what follows it. *)
Definition marker_at (s : bytes) : option (bytes * bytes) :=
  match s with
  | [] => None
  | x :: s1 =>
      if Ascii.eqb x "[" then
        match class_run alnum_ranges s1 with
        | ((_ :: _) as t, y :: rest) =>
            if Ascii.eqb y "]" then Some (t, rest) else None
        | _ => None
        end
      else None
  end.

(** What follows a given prefix of a text. *)
Fixpoint strip_prefix (p s : bytes) : option bytes :=
  match p with
  | [] => Some s
  | c :: p' =>
      match s with
      | x :: s' => if Ascii.eqb x c then strip_prefix p' s' else None
      | [] => None
      end
  end.

(** The first of the words [ws] that starts a text, and what follows it. *)
Fixpoint strip_any (ws : list bytes) (s : bytes) : option (bytes * bytes) :=
  match ws with
  | [] => None
  | w :: ws' =>
      match strip_prefix w s with
      | Some rest => Some (w, rest)
      | None => strip_any ws' s
      end
  end.

(** The verb and the title of a path the router accepts. *)
Definition route_of (path : bytes) : option (bytes * bytes) :=
  match strip_prefix (str "/") path with
  | None => None
  | Some s1 =>
      match strip_any routes s1 with
      | None => None
      | Some (verb, s2) =>
          match strip_prefix (str "/") s2 with
          | None => None
          | Some s3 =>
              match class_run alnum_ranges s3 with
              | ((_ :: _) as title, []) => Some (verb, title)
              | _ => None
              end
          end
      end
  end.

(** ** Lexical path cleaning ([path.Clean] and [net/http]'s [cleanPath]) *)

(** [strings.Split(s, "/")]. *)
Fixpoint split_slash (s : bytes) : list bytes :=
  match s with
  | [] => [[]]
  | c :: s' =>
      if Ascii.eqb c "/" then [] :: split_slash s'
      else match split_slash s' with
           | e :: es => (c :: e) :: es
           | [] => [[c]]
           end
  end.

Definition bytes_eqb (a b : bytes) : bool := bool_decide (a = b).

(** The elements that survive cleaning, innermost last; [out] is the stack
    of elements kept so far, top first.  An empty element and [.] are
    dropped; [..] removes the element before it, is dropped at the root of
    a rooted path, and is kept at the start of a relative one. *)
Fixpoint clean_elems (rooted : bool) (elems out : list bytes) : list bytes :=
  match elems with
  | [] => rev out
  | e :: es =>
      if bytes_eqb e [] || bytes_eqb e (str ".") then clean_elems rooted es out
      else if bytes_eqb e (str "..") then
        match out with
        | top :: out' =>
            if bytes_eqb top (str "..") then clean_elems rooted es (e :: out)
            else clean_elems rooted es out'
        | [] => if rooted then clean_elems rooted es []
                else clean_elems rooted es [e]
        end
      else clean_elems rooted es (e :: out)
  end.

Fixpoint join_slash (es : list bytes) : bytes :=
  match es with
  | [] => []
  | [e] => e
  | e :: es' => e ++ "/" :: join_slash es'
  end.

Definition has_prefix (s p : bytes) : bool := bytes_eqb (take (length p) s) p.

Definition ends_with_slash (s : bytes) : bool :=
  match last s with Some c => Ascii.eqb c "/" | None => false end.

(** [path.Clean]. *)
Definition path_Clean (p : bytes) : bytes :=
  match p with
  | [] => str "."
  | c :: _ =>
      let rooted := Ascii.eqb c "/" in
      let body := join_slash (clean_elems rooted (split_slash p) []) in
      let out := if rooted then "/" :: body else body in
      match out with [] => str "." | _ :: _ => out end
  end.

(** [cleanPath] of [net/http]: the canonical form of a request path, which
    is rooted and keeps a trailing slash. *)
Definition cleanPath (p : bytes) : bytes :=
  match p with
  | [] => str "/"
  | c :: _ =>
      let p := if Ascii.eqb c "/" then p else "/" :: p in
      let np := path_Clean p in
      if ends_with_slash p && negb (bytes_eqb np (str "/"))
      then np ++ str "/" else np
  end.

(** ** Pages, the file store and the response *)

(** [type Page struct].  The variants without inter-page links have no
    [DisplayBody]; it keeps its zero value there. *)
Record Page : Type := mkPage {
  Title : bytes;
  Body : bytes;
  DisplayBody : bytes
}.

(** A Go [error], by its message; [nil] is [None]. *)
Definition error := bytes.

Inductive result (A : Type) : Type :=
| Ok (a : A)
| Err (e : error).
Arguments Ok {A} a.
Arguments Err {A} e.

(** The file store: the content of every file; what the operating system
    refuses, each with the error it reports: the paths that cannot be
    opened for writing ([denied]: missing directory, read-only file, ...),
    the paths that cannot be read ([unreadable]: write-only file, ...) and
    the paths where a write stops after some bytes or the close fails
    ([faulty]: full disk, ...); and the journal of the calls of
    [WriteFile], latest first.  The three are independent: a file may be
    readable and not writable, or the reverse. *)
Record FS : Type := mkFS {
  files : gmap bytes bytes;
  denied : gmap bytes error;
  unreadable : gmap bytes error;
  faulty : gmap bytes (nat * error);
  journal : list (bytes * bytes)
}.

(** The response under construction.  The first [WriteHeader] fixes the
    status line and the headers; later changes of the header map are not
    sent and are dropped here. *)
Record ResponseWriter : Type := mkRW {
  status : option nat;
  header : gmap bytes bytes;
  body : bytes
}.

Definition freshResponse : ResponseWriter := mkRW None ∅ [].

(** A request: its method, the path and the raw query of its URL, and its
    parsed form. *)
Record Request : Type := mkRequest {
  Method : bytes;
  URL_Path : bytes;
  URL_RawQuery : bytes;
  Form : gmap bytes (list bytes)
}.

Record World : Type := mkWorld {
  fs : FS;
  resp : ResponseWriter
}.

(** Computations of the server: they read and change the world, and may
    panic ([None]). *)
Definition IO (A : Type) : Type := World -> option (A * World).

Definition ret {A} (a : A) : IO A := fun w => Some (a, w).
Definition bind {A B} (m : IO A) (k : A -> IO B) : IO B :=
  fun w => match m w with Some (a, w') => k a w' | None => None end.
Definition panic {A} : IO A := fun _ => None.
Definition lift_option {A} (o : option A) : IO A :=
  match o with Some a => ret a | None => panic end.

Notation "x <~ m ;; k" := (bind m (fun x => k))
  (at level 100, m at next level, right associativity).
Notation "m ;;; k" := (bind m (fun _ => k))
  (at level 100, right associativity).

Definition StatusOK := 200.
Definition StatusMovedPermanently := 301.
Definition StatusFound := 302.
Definition StatusSeeOther := 303.
Definition StatusTemporaryRedirect := 307.
Definition StatusPermanentRedirect := 308.
Definition StatusNotFound := 404.
Definition StatusInternalServerError := 500.

(** [w.Header().Set(k, v)] *)
Definition Header_Set (k v : bytes) : IO unit := fun w =>
  let r := resp w in
  match status r with
  | None => Some (tt, mkWorld (fs w) (mkRW None (<[k:=v]> (header r)) (body r)))
  | Some _ => Some (tt, w)
  end.

(** [w.WriteHeader(code)]: a second call is ignored. *)
Definition WriteHeader (code : nat) : IO unit := fun w =>
  let r := resp w in
  match status r with
  | None => Some (tt, mkWorld (fs w) (mkRW (Some code) (header r) (body r)))
  | Some _ => Some (tt, w)
  end.

(** [w.Write(data)]: writes the status line 200 first if none was written. *)
Definition Write (data : bytes) : IO unit :=
  WriteHeader StatusOK ;;;
  fun w => let r := resp w in
    Some (tt, mkWorld (fs w) (mkRW (status r) (header r) (body r ++ data))).

Definition newline : ascii := "010".

(** [http.Error(w, msg, code)] *)
Definition http_Error (msg : bytes) (code : nat) : IO unit :=
  Header_Set (str "Content-Type") (str "text/plain; charset=utf-8") ;;;
  Header_Set (str "X-Content-Type-Options") (str "nosniff") ;;;
  WriteHeader code ;;;
  Write (msg ++ [newline]).

(** [http.NotFound(w, r)] *)
Definition http_NotFound (r : Request) : IO unit :=
  http_Error (str "404 page not found") StatusNotFound.

(** [htmlEscape] of [net/http]: the five entities, without the NUL case. *)
Definition http_htmlEscape (s : bytes) : bytes :=
  flat_map (fun c =>
    if Ascii.eqb c "&" then str "&amp;"
    else if Ascii.eqb c "<" then str "&lt;"
    else if Ascii.eqb c ">" then str "&gt;"
    else if Ascii.eqb c dquote then str "&#34;"
    else if Ascii.eqb c "'" then str "&#39;"
    else [c]) s.

(** [http.StatusText(code)], for the codes of the redirects. *)
Definition StatusText (code : nat) : bytes :=
  if code =? StatusMovedPermanently then str "Moved Permanently"
  else if code =? StatusFound then str "Found"
  else if code =? StatusSeeOther then str "See Other"
  else if code =? StatusTemporaryRedirect then str "Temporary Redirect"
  else if code =? StatusPermanentRedirect then str "Permanent Redirect"
  else [].

(** [http.Redirect(w, r, url, code)]: the [Location] header, the status
    line and, for a GET request, a short HTML note.  The library first
    brings a relative or unclean [url] to canonical form, the query apart;
    the targets the program builds from the titles the router lets
    through, and the targets of the multiplexer, which are cleaned and
    percent-encoded paths, are rooted, clean and ASCII, and are sent as
    they are. *)
Definition http_Redirect (r : Request) (url : bytes) (code : nat) : IO unit :=
  fun w =>
    let hadCT := bool_decide (is_Some (header (resp w) !! str "Content-Type")) in
    let isGet := bytes_eqb (Method r) (str "GET") in
    let isHead := bytes_eqb (Method r) (str "HEAD") in
    (Header_Set (str "Location") url ;;;
     (if negb hadCT && (isGet || isHead)
      then Header_Set (str "Content-Type") (str "text/html; charset=utf-8")
      else ret tt) ;;;
     WriteHeader code ;;;
     (if negb hadCT && isGet
      then Write (str "<a href=" ++ [dquote] ++ http_htmlEscape url ++ [dquote]
                    ++ str ">" ++ StatusText code ++ str "</a>." ++ [newline]
                    ++ [newline])
      else ret tt)) w.

(** [ioutil.ReadFile(name)] *)
Definition ReadFile (name : bytes) : IO (result bytes) := fun w =>
  match unreadable (fs w) !! name with
  | Some e => Some (Err e, w)
  | None =>
      match files (fs w) !! name with
      | Some data => Some (Ok data, w)
      | None =>
          Some (Err (str "open " ++ name ++ str ": no such file or directory"), w)
      end
  end.

(** The store after a call of [WriteFile] for [name] with [data] that
    left [stored] in the file, or left the file alone ([None]). *)
Definition written (f : FS) (name data : bytes) (stored : option bytes) : FS :=
  mkFS (match stored with
        | Some content => <[name:=content]> (files f)
        | None => files f
        end)
       (denied f) (unreadable f) (faulty f) ((name, data) :: journal f).

(** [ioutil.WriteFile(name, data, 0600)]: the file is opened with
    [O_WRONLY|O_CREATE|O_TRUNC], [data] is written and the file is closed.
    When the file cannot be opened it stays as it is.  When the write or
    the close fails, the file was truncated already and holds the bytes
    that reached it, a prefix of [data].  Otherwise it holds exactly
    [data]. *)
Definition WriteFile (name data : bytes) : IO (option error) := fun w =>
  let f := fs w in
  match denied f !! name with
  | Some e => Some (Some e, mkWorld (written f name data None) (resp w))
  | None =>
      match faulty f !! name with
      | Some (n, e) =>
          Some (Some e, mkWorld (written f name data (Some (take n data))) (resp w))
      | None => Some (None, mkWorld (written f name data (Some data)) (resp w))
      end
  end.

(** [r.FormValue(key)]: the first value of the field, or the empty string. *)
Definition FormValue (r : Request) (key : bytes) : bytes :=
  match Form r !! key with
  | Some (v :: _) => v
  | _ => []
  end.

(** ** The server *)

(** The subtrees [main] registers beside the catch-all pattern, and their
    roots written without the trailing slash. *)
Definition subtrees : list bytes :=
  [str "/view/"; str "/edit/"; str "/save/"; str "/static/"].

Definition subtree_roots : list bytes :=
  [str "/view"; str "/edit"; str "/save"; str "/static"].

Definition under (path : bytes) : Prop :=
  exists t, t ∈ subtrees /\ has_prefix path t = true.

Definition handlerFunc : Type := Request -> IO unit.

(** ** URLs

    [net/url], as far as the multiplexer uses it: the text of a URL that
    has a path and a query only. *)

(** [shouldEscape(c, encodePath)]: letters, digits, the marks [-_.~] and
    the reserved characters but [?] are kept. *)
Definition shouldEscape (c : ascii) : bool :=
  if is_alnum c then false
  else if existsb (Ascii.eqb c) (str "-_.~") then false
  else if existsb (Ascii.eqb c) (str "$&+,/:;=@") then false
  else true.

Definition upperhex : bytes := str "0123456789ABCDEF".

Definition escapeByte (c : ascii) : bytes :=
  if shouldEscape c
  then ["%"; nth (nat_of_ascii c / 16) upperhex "0";
        nth (nat_of_ascii c mod 16) upperhex "0"]
  else [c].

(** [u.EscapedPath()], for a URL without a raw path. *)
Definition EscapedPath (path : bytes) : bytes :=
  if bytes_eqb path (str "*") then path else flat_map escapeByte path.

(** A colon in the first segment of a path. *)
Fixpoint colon_first (s : bytes) : bool :=
  match s with
  | [] => false
  | c :: s' =>
      if Ascii.eqb c "/" then false
      else if Ascii.eqb c ":" then true
      else colon_first s'
  end.

(** [u.String()], for [url.URL{Path: path, RawQuery: query}]. *)
Definition URL_String (path query : bytes) : bytes :=
  let escaped := EscapedPath path in
  (if colon_first escaped then str "./" else [])
    ++ escaped
    ++ match query with [] => [] | _ :: _ => "?" :: query end.

(** [http.RedirectHandler(url, code)] *)
Definition RedirectHandler (url : bytes) (code : nat) : handlerFunc :=
  fun r => http_Redirect r url code.

(** [http.NotFoundHandler()] *)
Definition NotFoundHandler : handlerFunc := http_NotFound.

(** [http.ServeMux] as the program uses it: patterns without a host or a
    method.  [mux_m] holds every pattern, [mux_es] the patterns that end
    in a slash, longest first. *)
Record ServeMux : Type := mkMux {
  mux_m : gmap bytes handlerFunc;
  mux_es : list (bytes * handlerFunc)
}.

Definition emptyMux : ServeMux := mkMux ∅ [].

(** [appendSorted]: before the first entry with a shorter pattern. *)
Fixpoint appendSorted (es : list (bytes * handlerFunc)) (e : bytes * handlerFunc)
  : list (bytes * handlerFunc) :=
  match es with
  | [] => [e]
  | e' :: es' =>
      if length (fst e') <? length (fst e) then e :: es
      else e' :: appendSorted es' e
  end.

(** [mux.Handle(pattern, handler)]: the empty pattern and a pattern that is
    already registered are panics. *)
Definition Handle (pattern : bytes) (h : handlerFunc) (mux : ServeMux)
  : option ServeMux :=
  match pattern with
  | [] => None
  | _ :: _ =>
      match mux_m mux !! pattern with
      | Some _ => None
      | None =>
          Some (mkMux (<[pattern:=h]> (mux_m mux))
                      (if ends_with_slash pattern
                       then appendSorted (mux_es mux) (pattern, h)
                       else mux_es mux))
      end
  end.

(** [mux.match(path)]: the exact pattern, else the longest subtree. *)
Fixpoint match_es (es : list (bytes * handlerFunc)) (path : bytes) : option handlerFunc :=
  match es with
  | [] => None
  | (pattern, h) :: es' =>
      if has_prefix path pattern then Some h else match_es es' path
  end.

Definition mux_match (mux : ServeMux) (path : bytes) : option handlerFunc :=
  match mux_m mux !! path with
  | Some h => Some h
  | None => match_es (mux_es mux) path
  end.

(** [mux.handler(host, path)] *)
Definition mux_handler (mux : ServeMux) (path : bytes) : handlerFunc :=
  match mux_match mux path with
  | Some h => h
  | None => NotFoundHandler
  end.

(** [mux.shouldRedirectRLocked]: [path] names a registered subtree without
    its trailing slash, and is not registered itself. *)
Definition shouldRedirect (mux : ServeMux) (path : bytes) : bool :=
  match mux_m mux !! path with
  | Some _ => false
  | None =>
      match path with
      | [] => false
      | _ :: _ =>
          match mux_m mux !! (path ++ str "/") with
          | Some _ => negb (ends_with_slash path)
          | None => false
          end
      end
  end.

(** [mux.Handler(r)]: the path of every request but CONNECT is cleaned; a
    subtree root without its slash and a path that is not clean are
    answered by a redirect to the canonical path, percent-encoded and
    with the query of the request.  The status of that redirect, [code],
    is the library's: 301 in the releases the program was written for,
    307 in later ones. *)
Definition mux_Handler (code : nat) (mux : ServeMux) (r : Request) : handlerFunc :=
  if bytes_eqb (Method r) (str "CONNECT") then
    if shouldRedirect mux (URL_Path r)
    then RedirectHandler (URL_String (URL_Path r ++ str "/") (URL_RawQuery r)) code
    else mux_handler mux (URL_Path r)
  else
    let path := cleanPath (URL_Path r) in
    if shouldRedirect mux path
    then RedirectHandler (URL_String (path ++ str "/") (URL_RawQuery r)) code
    else if negb (bytes_eqb path (URL_Path r))
    then RedirectHandler (URL_String path (URL_RawQuery r)) code
    else mux_handler mux (URL_Path r).

(** [mux.ServeHTTP(w, r)], for a request with a path. *)
Definition ServeHTTP (code : nat) (mux : ServeMux) (r : Request) : IO unit :=
  mux_Handler code mux r r.

Section Server.

(** The directory of the page files: ["data/"] in the variant with
    links, empty in the two others. *)
Variable dataDir : bytes.

(** [templates.ExecuteTemplate(w, name, p)]: what the template writes
    for the page, and the error it stops with, if any.  The templates
    are files beside the program. *)
Variable ExecuteTemplate : bytes -> Page -> bytes * option error.

(** [http.StripPrefix("/static/", http.FileServer(http.Dir("static")))] *)
Variable staticFiles : handlerFunc.

(** The status of the redirects of the multiplexer to a canonical path. *)
Variable canonicalStatus : nat.

(** [func (p *Page) save() error] *)
Definition save (p : Page) : IO (option error) :=
  let filename := Title p ++ str ".txt" in
  WriteFile (dataDir ++ filename) (Body p).

(** [func loadPage(title string)], which returns a page or an error. *)
Definition loadPage (title : bytes) : IO (result Page) :=
  let filename := title ++ str ".txt" in
  res <~ ReadFile (dataDir ++ filename) ;;
  match res with
  | Err err => ret (Err err)
  | Ok body => ret (Ok (mkPage title body []))
  end.

(** [func renderTemplate(w, tmpl, p)] *)
Definition renderTemplate (tmpl : bytes) (p : Page) : IO unit :=
  let (out, err) := ExecuteTemplate (tmpl ++ str ".html") p in
  match out with [] => ret tt | _ :: _ => Write out end ;;;
  match err with
  | Some e => http_Error e StatusInternalServerError
  | None => ret tt
  end.

(** [func indexHandler(w, r)] *)
Definition indexHandler : handlerFunc :=
  fun r => http_Redirect r (str "/view/index") StatusFound.

(** Lines 77 to 83 of [viewHandler]: the page with its display body
    set from its body. *)
Definition displayPage (p : Page) : IO Page :=
  display <~ lift_option (render (Body p)) ;;
  ret (mkPage (Title p) (Body p) display).

(** [func viewHandler(w, r, title)], with inter-page links. *)
Definition viewHandler (r : Request) (title : bytes) : IO unit :=
  res <~ loadPage title ;;
  match res with
  | Err _ => http_Redirect r (str "/edit/" ++ title) StatusFound
  | Ok p =>
      p <~ displayPage p ;;
      renderTemplate (str "view") p
  end.

(** [func viewHandler(w, r, title)] of the variant without links. *)
Definition viewHandler_plain (r : Request) (title : bytes) : IO unit :=
  res <~ loadPage title ;;
  match res with
  | Err _ => http_Redirect r (str "/edit/" ++ title) StatusFound
  | Ok p => renderTemplate (str "view") p
  end.

(** [func editHandler(w, r, title)] *)
Definition editHandler (r : Request) (title : bytes) : IO unit :=
  res <~ loadPage title ;;
  let p := match res with
           | Err _ => mkPage title [] []
           | Ok p => p
           end in
  renderTemplate (str "edit") p.

(** [func saveHandler(w, r, title)] *)
Definition saveHandler (r : Request) (title : bytes) : IO unit :=
  let body := FormValue r (str "body") in
  let p := mkPage title body [] in
  err <~ save p ;;
  match err with
  | Some e => http_Error e StatusInternalServerError
  | None => http_Redirect r (str "/view/" ++ title) StatusFound
  end.

(** [func makeHandler(fn) http.HandlerFunc] *)
Definition makeHandler (fn : Request -> bytes -> IO unit) : handlerFunc :=
  fun r =>
    match FindStringSubmatch validPath (URL_Path r) with
    | None => http_NotFound r
    | Some m =>
        title <~ lift_option (index m 2) ;;
        fn r title
    end.

(** The handler [main] wraps for each verb of the router. *)
Definition routeHandler (verb : bytes) : Request -> bytes -> IO unit :=
  if bytes_eqb verb (str "view") then viewHandler
  else if bytes_eqb verb (str "edit") then editHandler
  else saveHandler.

(** The registrations of [main], in the variant with links. *)
Definition mainMux : option ServeMux :=
  mux ← Handle (str "/") indexHandler emptyMux;
  mux ← Handle (str "/view/") (makeHandler viewHandler) mux;
  mux ← Handle (str "/edit/") (makeHandler editHandler) mux;
  mux ← Handle (str "/save/") (makeHandler saveHandler) mux;
  Handle (str "/static/") staticFiles mux.

(** The registrations of [main], in the variant without links. *)
Definition mainMux_plain : option ServeMux :=
  mux ← Handle (str "/view/") (makeHandler viewHandler_plain) emptyMux;
  mux ← Handle (str "/edit/") (makeHandler editHandler) mux;
  Handle (str "/save/") (makeHandler saveHandler) mux.

(** One request served by [http.ListenAndServe(":8080", nil)]. *)
Definition serve (r : Request) : IO unit :=
  mux <~ lift_option mainMux ;;
  ServeHTTP canonicalStatus mux r.

End Server.

(** ** A small instance of the server

    A template that writes its name and the fields of the page, a static
    file server that answers with a fixed text, and a store without files. *)

Definition plainTemplate (name : bytes) (p : Page) : bytes * option error :=
  (name ++ str ": " ++ Title p ++ str ": " ++ Body p ++ str ": " ++ DisplayBody p,
   None).

Definition fixedStatic : handlerFunc := fun _ => Write (str "static").

Definition emptyFS : FS := mkFS ∅ ∅ ∅ ∅ [].

Definition get (path : bytes) : Request := mkRequest (str "GET") path [] ∅.

(** ** The rest of the program *)

(** [func getTitle(w, r) (string, error)] of the variant without links:
    the title and [nil], or the empty string and an error after the answer
    404 was written. *)
Definition getTitle (r : Request) : IO (bytes * option error) :=
  match FindStringSubmatch validPath (URL_Path r) with
  | None =>
      http_NotFound r ;;;
      ret ([], Some (str "invalid Page Title"))
  | Some m =>
      title <~ lift_option (index m 2) ;;
      ret (title, None)
  end.

(** The handler [main] of the variant without links wraps for each verb. *)
Definition routeHandler_plain (dataDir : bytes)
    (ExecuteTemplate : bytes -> Page -> bytes * option error) (verb : bytes)
  : Request -> bytes -> IO unit :=
  if bytes_eqb verb (str "view") then viewHandler_plain dataDir ExecuteTemplate
  else if bytes_eqb verb (str "edit") then editHandler dataDir ExecuteTemplate
  else saveHandler dataDir.

(** One request served by [main] of the variant without links. *)
Definition serve_plain (dataDir : bytes)
    (ExecuteTemplate : bytes -> Page -> bytes * option error)
    (canonicalStatus : nat) (r : Request)
  : IO unit :=
  mux <~ lift_option (mainMux_plain dataDir ExecuteTemplate) ;;
  ServeHTTP canonicalStatus mux r.

(** The subtrees of the variant without links, and their roots. *)
Definition subtrees_plain : list bytes :=
  [str "/view/"; str "/edit/"; str "/save/"].

Definition subtree_roots_plain : list bytes :=
  [str "/view"; str "/edit"; str "/save"].

(** The first variant, which only saves a page and loads it again. *)
Module SaveLoad.

(** [func main()]: the result is the line written to the standard output.
    The error of [save] is dropped; when [loadPage] fails, [p2] is nil and
    reading [p2.Body] is a run-time panic. *)
Definition main : IO bytes :=
  let p1 := mkPage (str "TestPage") (str "This is a sample page.") [] in
  _ <~ save [] p1 ;;
  res <~ loadPage [] (str "TestPage") ;;
  match res with
  | Ok p2 => ret (Body p2 ++ [newline])
  | Err _ => panic
  end.

End SaveLoad.

(** ** The variables of the package

    [templates], [validPath] and [linkPath] are variables of the package:
    a handler reads them when it runs, and nothing in the language keeps
    it from assigning them.  [viewHandler] with links is written once more
    here with these variables in the state, beside the world, so that what
    it reads and what it leaves unchanged can be stated.  The callback of
    [ReplaceAllFunc] is a closure that runs in that state too. *)
Record Vars : Type := mkVars {
  templates : bytes -> Page -> bytes * option error;
  validPath_var : regex;
  linkPath_var : regex
}.

Record Mem : Type := mkMem {
  vars : Vars;
  world : World
}.

Definition Prog (A : Type) : Type := Mem -> option (A * Mem).

Definition retP {A} (a : A) : Prog A := fun s => Some (a, s).
Definition bindP {A B} (m : Prog A) (k : A -> Prog B) : Prog B :=
  fun s => match m s with Some (a, s') => k a s' | None => None end.
Definition panicP {A} : Prog A := fun _ => None.

Notation "x <~~ m ;; k" := (bindP m (fun x => k))
  (at level 100, m at next level, right associativity).

(** Reading a variable of the package. *)
Definition readVar {A} (var : Vars -> A) : Prog A :=
  fun s => Some (var (vars s), s).

(** A computation on the world alone. *)
Definition liftIO {A} (m : IO A) : Prog A :=
  fun s => match m (world s) with
           | Some (a, w) => Some (a, mkMem (vars s) w)
           | None => None
           end.

(** [re.ReplaceAllFunc(src, repl)] with a callback that runs in the state
    of the program: the callback is called for the matches from left to
    right, each call in the state the one before has left. *)
Fixpoint spliceP (repl : bytes -> Prog bytes) (ps : list piece) : Prog bytes :=
  match ps with
  | [] => retP []
  | PByte c :: ps' =>
      rest <~~ spliceP repl ps' ;;
      retP (c :: rest)
  | PMatch span :: ps' =>
      out <~~ repl span ;;
      rest <~~ spliceP repl ps' ;;
      retP (out ++ rest)
  end.

Definition ReplaceAllFuncP (r : regex) (src : bytes) (repl : bytes -> Prog bytes)
  : Prog bytes :=
  spliceP repl (scan r 0 src).

(** Lines 79 to 83: the callback reads [linkPath] when it is called. *)
Definition linkReplP (span : bytes) : Prog bytes :=
  re <~~ readVar linkPath_var ;;
  match FindStringSubmatch re span with
  | None => panicP
  | Some matched =>
      match index matched 1 with
      | Some title => retP (anchor title)
      | None => panicP
      end
  end.

(** Lines 77 to 83: the display body computed from the raw body. *)
Definition renderP (body : bytes) : Prog bytes :=
  let escapedBody := HTMLEscapeString body in
  re <~~ readVar linkPath_var ;;
  ReplaceAllFuncP re escapedBody linkReplP.

(** [func renderTemplate(w, tmpl, p)], which reads [templates]. *)
Definition renderTemplateP (tmpl : bytes) (p : Page) : Prog unit :=
  t <~~ readVar templates ;;
  liftIO (renderTemplate t tmpl p).

(** [func viewHandler(w, r, title)], lines 70 to 86. *)
Definition viewHandlerP (dataDir : bytes) (r : Request) (title : bytes) : Prog unit :=
  res <~~ liftIO (loadPage dataDir title) ;;
  match res with
  | Err _ => liftIO (http_Redirect r (str "/edit/" ++ title) StatusFound)
  | Ok p =>
      display <~~ renderP (Body p) ;;
      renderTemplateP (str "view") (mkPage (Title p) (Body p) display)
  end.

(** [func editHandler(w, r, title)] *)
Definition editHandlerP (dataDir : bytes) (r : Request) (title : bytes) : Prog unit :=
  res <~~ liftIO (loadPage dataDir title) ;;
  let p := match res with
           | Err _ => mkPage title [] []
           | Ok p => p
           end in
  renderTemplateP (str "edit") p.

(** [func saveHandler(w, r, title)] *)
Definition saveHandlerP (dataDir : bytes) (r : Request) (title : bytes) : Prog unit :=
  let body := FormValue r (str "body") in
  let p := mkPage title body [] in
  err <~~ liftIO (save dataDir p) ;;
  match err with
  | Some e => liftIO (http_Error e StatusInternalServerError)
  | None => liftIO (http_Redirect r (str "/view/" ++ title) StatusFound)
  end.

(** [func makeHandler(fn) http.HandlerFunc], which reads [validPath]. *)
Definition makeHandlerP (fn : Request -> bytes -> Prog unit) : Request -> Prog unit :=
  fun r =>
    re <~~ readVar validPath_var ;;
    match FindStringSubmatch re (URL_Path r) with
    | None => liftIO (http_NotFound r)
    | Some m =>
        match index m 2 with
        | Some title => fn r title
        | None => panicP
        end
    end.

(** The handlers that [main] registers. *)
Definition handlersP (dataDir : bytes) (staticFiles : handlerFunc)
  : list (Request -> Prog unit) :=
  [fun r => liftIO (indexHandler r);
   makeHandlerP (viewHandlerP dataDir);
   makeHandlerP (editHandlerP dataDir);
   makeHandlerP (saveHandlerP dataDir);
   fun r => liftIO (staticFiles r)].

(** The variables as the package initialises them. *)
Definition initVars (ExecuteTemplate : bytes -> Page -> bytes * option error) : Vars :=
  mkVars ExecuteTemplate validPath linkPath.

(** The states the server goes through: it starts with the variables as
    they are initialised, in any world; a handler serves a request; and
    between two requests the world changes in any way. *)
Inductive reachable (dataDir : bytes)
    (ExecuteTemplate : bytes -> Page -> bytes * option error)
    (staticFiles : handlerFunc) : Mem -> Prop :=
| reach_init w :
    reachable dataDir ExecuteTemplate staticFiles (mkMem (initVars ExecuteTemplate) w)
| reach_serve s h r a s' :
    reachable dataDir ExecuteTemplate staticFiles s ->
    h ∈ handlersP dataDir staticFiles ->
    h r s = Some (a, s') ->
    reachable dataDir ExecuteTemplate staticFiles s'
| reach_world s w :
    reachable dataDir ExecuteTemplate staticFiles s ->
    reachable dataDir ExecuteTemplate staticFiles (mkMem (vars s) w).

(** A computation that assigns no variable of the package. *)
Definition keeps_vars {A} (m : Prog A) : Prop :=
  forall s a s', m s = Some (a, s') -> vars s' = vars s.

(** A computation that leaves the file store as it found it. *)
Definition preserves_fs {A} (m : IO A) : Prop :=
  forall w a w', m w = Some (a, w') -> fs w' = fs w.

(** A computation that never panics. *)
Definition never_panics {A} (m : IO A) : Prop :=
  forall w, exists a w', m w = Some (a, w').

(** A text that holds a marker somewhere. *)
Definition holds_marker (s : bytes) : Prop :=
  exists pre title rest, is_title title /\ s = pre ++ marker title ++ rest.

(** A store with one page. *)
Definition homeFS : FS :=
  mkFS {[ str "data/Home.txt" := str "See [Other] & more." ]} ∅ ∅ ∅ [].

(** A form with the field [body]. *)
Definition post (path content : bytes) : Request :=
  mkRequest (str "POST") path [] {[ str "body" := [content] ]}.

(** * Properties *)

(** ** Characters and lists *)

(** Membership in a list that is written out. *)
Ltac in_list := unfold subtrees, subtree_roots; rewrite !elem_of_cons; tauto.

Ltac each_byte c :=
  destruct c as [[] [] [] [] [] [] [] []]; try reflexivity; try discriminate.

Lemma in_class_alnum c : in_class alnum_ranges c = is_alnum c.
Proof. each_byte c. Qed.

Lemma eqb_true (a b : ascii) : Ascii.eqb a b = true <-> a = b.
Proof. apply Ascii.eqb_eq. Qed.

Lemma eqb_false (a b : ascii) : Ascii.eqb a b = false <-> a <> b.
Proof. apply Ascii.eqb_neq. Qed.

Lemma alnum_not_bracket c :
  is_alnum c = true -> c <> "[" /\ c <> "]" /\ c <> "/".
Proof. each_byte c. all: intros _; repeat split; discriminate. Qed.

(** ** Runs of a class *)

Lemma class_run_app ranges s :
  fst (class_run ranges s) ++ snd (class_run ranges s) = s.
Proof.
  induction s as [|x s IH]; simpl; [reflexivity|].
  destruct (in_class ranges x); [|reflexivity].
  destruct (class_run ranges s) as [t rest]; simpl in *. now rewrite IH.
Qed.

Lemma class_run_all ranges s :
  Forall (fun c => in_class ranges c = true) (fst (class_run ranges s)).
Proof.
  induction s as [|x s IH]; simpl; [constructor|].
  destruct (in_class ranges x) eqn:Hx; [|constructor].
  destruct (class_run ranges s) as [t rest]; simpl in *. now constructor.
Qed.

Lemma class_run_stop ranges s x rest :
  snd (class_run ranges s) = x :: rest -> in_class ranges x = false.
Proof.
  induction s as [|y s IH]; simpl; [discriminate|].
  destruct (in_class ranges y) eqn:Hy.
  - destruct (class_run ranges s) as [t r]; simpl in *. exact IH.
  - intros [= -> ->]. exact Hy.
Qed.

(** The run of a text that is made of class characters up to a character
    outside the class. *)
Lemma class_run_intro ranges t x rest :
  Forall (fun c => in_class ranges c = true) t ->
  in_class ranges x = false ->
  class_run ranges (t ++ x :: rest) = (t, x :: rest).
Proof.
  intros Ht Hx. induction Ht as [|y t Hy Ht IH]; simpl.
  - now rewrite Hx.
  - now rewrite Hy, IH.
Qed.

Lemma class_run_all_nil ranges t :
  Forall (fun c => in_class ranges c = true) t ->
  class_run ranges t = (t, []).
Proof.
  intros Ht. induction Ht as [|y t Hy Ht IH]; simpl; [reflexivity|].
  now rewrite Hy, IH.
Qed.

(** ** The loop of [+] over a character class *)

Lemma plus_loop_class ranges k fuel pos s c :
  length s < fuel ->
  plus_loop (step (Class ranges)) k fuel pos s c = greedy ranges k pos s c.
Proof.
  revert pos s c. induction fuel as [|fuel IH]; intros pos s c Hlen; [lia|].
  destruct s as [|x s]; simpl; [reflexivity|].
  destruct (in_class ranges x); [|reflexivity].
  assert (Hlt : (length s <? S (length s)) = true) by (apply Nat.ltb_lt; lia).
  rewrite Hlt. rewrite IH by (simpl in Hlen; lia). reflexivity.
Qed.

Lemma step_plus_class ranges k pos s c :
  step (Plus (Class ranges)) pos s c k = greedy ranges k pos s c.
Proof.
  change (step (Plus (Class ranges)) pos s c k)
    with (plus_loop (step (Class ranges)) k (S (length s)) pos s c).
  apply plus_loop_class. lia.
Qed.

(** When the continuation refuses every text that goes on with a character
    of the class, only the longest run can succeed. *)
Lemma greedy_longest ranges (k : cont) pos s c :
  (forall p x s' c', in_class ranges x = true -> k p (x :: s') c' = None) ->
  greedy ranges k pos s c =
  match class_run ranges s with
  | ([], _) => None
  | ((_ :: _) as t, rest) => k (pos + length t) rest c
  end.
Proof.
  intros Hk. revert pos. induction s as [|x s IH]; intros pos; simpl; [reflexivity|].
  destruct (in_class ranges x) eqn:Hx; [|reflexivity].
  rewrite IH.
  pose proof (class_run_app ranges s) as Happ.
  pose proof (class_run_all ranges s) as Hall.
  destruct (class_run ranges s) as [t rest]; simpl in Happ, Hall.
  destruct t as [|y t].
  - replace (pos + length [x]) with (S pos) by (simpl; lia).
    simpl in Happ. now subst s.
  - replace (pos + length (x :: y :: t)) with (S pos + length (y :: t))
      by (simpl; lia).
    destruct (k (S pos + length (y :: t)) rest c); [reflexivity|].
    subst s. apply Hk. now inversion Hall.
Qed.

(** ** The marker pattern *)

Lemma marker_at_iff s title rest :
  marker_at s = Some (title, rest) <-> is_title title /\ s = marker title ++ rest.
Proof.
  unfold marker_at, is_title, marker. split.
  - destruct s as [|x s1]; [discriminate|].
    destruct (Ascii.eqb x "[") eqn:Hx; [|discriminate].
    apply eqb_true in Hx. subst x.
    pose proof (class_run_app alnum_ranges s1) as Happ.
    pose proof (class_run_all alnum_ranges s1) as Hall.
    destruct (class_run alnum_ranges s1) as [t r]; simpl in Happ, Hall.
    destruct t as [|y t]; [discriminate|].
    destruct r as [|z r]; [discriminate|].
    destruct (Ascii.eqb z "]") eqn:Hz; [|discriminate].
    apply eqb_true in Hz. subst z. intros [= <- <-].
    split; [split; [discriminate|]|].
    + eapply Forall_impl; [exact Hall|]. intros c Hc.
      change (in_class alnum_ranges c = true) in Hc.
      now rewrite in_class_alnum in Hc.
    + subst s1. simpl. now rewrite <- app_assoc.
  - intros [[Hne Hall] ->]. simpl. rewrite <- app_assoc. simpl.
    rewrite class_run_intro.
    + destruct title; [congruence|reflexivity].
    + eapply Forall_impl; [exact Hall|]. intros c Hc. cbv beta.
      now rewrite in_class_alnum.
    + reflexivity.
Qed.

Lemma exec_linkPath pos s :
  exec linkPath pos s =
  match marker_at s with
  | Some (title, rest) => Some (mkThread (pos + length title + 2) rest [(1, title)])
  | None => None
  end.
Proof.
  destruct s as [|x s1]; [reflexivity|].
  change (exec linkPath pos (x :: s1)) with
    (if Ascii.eqb x "[" then
       step (Plus (Class alnum_ranges)) (S pos) s1 []
         (fun pos' s' c' =>
            match s' with
            | y :: s'' =>
                if Ascii.eqb y "]"
                then Some (mkThread (S pos') s'' ((1, take (pos' - S pos) s1) :: c'))
                else None
            | [] => None
            end)
     else None).
  unfold marker_at. destruct (Ascii.eqb x "["); [|reflexivity].
  rewrite step_plus_class, greedy_longest.
  - pose proof (class_run_app alnum_ranges s1) as Happ.
    destruct (class_run alnum_ranges s1) as [t r]; simpl in Happ.
    destruct t as [|y t]; [reflexivity|].
    destruct r as [|z r]; [reflexivity|].
    destruct (Ascii.eqb z "]"); [|reflexivity].
    f_equal. f_equal; [lia|].
    replace (S pos + length (y :: t) - S pos) with (length (y :: t)) by lia.
    subst s1. now rewrite take_app_length.
  - intros p y s' c' Hy. destruct (Ascii.eqb y "]") eqn:Hz; [|reflexivity].
    apply eqb_true in Hz. subst y. discriminate.
Qed.

(** The pattern never matches the empty string. *)
Lemma exec_linkPath_progress pos s t :
  exec linkPath pos s = Some t -> length (th_rest t) < length s.
Proof.
  rewrite exec_linkPath. destruct (marker_at s) as [[title rest]|] eqn:Hm; [|discriminate].
  intros [= <-]. simpl. apply marker_at_iff in Hm as [_ ->].
  unfold marker. simpl. rewrite !length_app. simpl. lia.
Qed.

(** The callback finds the title of the span it is given. *)
Lemma linkRepl_marker title :
  is_title title -> linkRepl (marker title) = Some (anchor title).
Proof.
  intros Ht. unfold linkRepl, FindStringSubmatch.
  assert (Hm : marker_at (marker title) = Some (title, [])).
  { apply marker_at_iff. split; [exact Ht|]. now rewrite app_nil_r. }
  unfold marker in *. simpl find_from. rewrite exec_linkPath, Hm. reflexivity.
Qed.

(** A text cut at the first occurrence of a character, in one way only. *)
Lemma first_occurrence (x : ascii) l1 r1 l2 r2 :
  x ∉ l1 -> x ∉ l2 -> l1 ++ x :: r1 = l2 ++ x :: r2 -> l1 = l2 /\ r1 = r2.
Proof.
  revert l2. induction l1 as [|a l1 IH]; intros [|b l2] H1 H2; simpl.
  - now intros [= ->].
  - intros [= <- _]. exfalso. apply H2. now left.
  - intros [= -> _]. exfalso. apply H1. now left.
  - intros [= -> Heq]. apply not_elem_of_cons in H1 as [_ H1].
    apply not_elem_of_cons in H2 as [_ H2].
    destruct (IH l2 H1 H2 Heq) as [-> ->]. now split.
Qed.

Lemma title_no_close title : is_title title -> "]" ∉ title.
Proof.
  intros [_ Hall] Hin. rewrite Forall_forall in Hall.
  specialize (Hall _ Hin). discriminate.
Qed.

(** Between a [[] and the first []] after it, a marker is exactly a
    non-empty run of letters and digits. *)
Lemma bracketed_marker inside rest :
  "]" ∉ inside ->
  (starts_with_marker ("[" :: inside ++ "]" :: rest) <-> is_title inside).
Proof.
  intros Hin. split.
  - intros (title & rest' & Ht & Heq). unfold marker in Heq.
    simpl in Heq. rewrite <- app_assoc in Heq. simpl in Heq.
    injection Heq as Heq.
    apply first_occurrence in Heq as [-> _];
      [exact Ht|exact Hin|now apply title_no_close].
  - intros Ht. exists inside, rest. split; [exact Ht|].
    unfold marker. simpl. now rewrite <- app_assoc.
Qed.

(** ** The scan, token by token *)

Lemma scan_linkPath_marker pos title rest :
  is_title title ->
  scan linkPath pos (marker title ++ rest)
  = PMatch (marker title) :: scan linkPath (pos + length (marker title)) rest.
Proof.
  intros Ht.
  assert (Hm : marker_at (marker title ++ rest) = Some (title, rest))
    by now apply marker_at_iff.
  rewrite scan_equation. unfold marker in *. simpl app in *.
  rewrite exec_linkPath, Hm. cbn [th_rest].
  assert (Hlen : length ("[" :: (title ++ ["]"]) ++ rest) - length rest
                 = length ("[" :: title ++ ["]"])).
  { simpl. rewrite !length_app. simpl. lia. }
  assert (Hlt : (length rest <? length ("[" :: (title ++ ["]"]) ++ rest)) = true).
  { apply Nat.ltb_lt. simpl. rewrite !length_app. simpl. lia. }
  rewrite Hlt, Hlen. f_equal. f_equal.
  change ("[" :: (title ++ ["]"]) ++ rest) with (("[" :: title ++ ["]"]) ++ rest).
  now rewrite take_app_length.
Qed.

Lemma scan_linkPath_byte pos c s :
  marker_at (c :: s) = None ->
  scan linkPath pos (c :: s) = PByte c :: scan linkPath (S pos) s.
Proof.
  intros Hm. rewrite scan_equation, exec_linkPath, Hm. reflexivity.
Qed.

Lemma starts_with_marker_iff s :
  starts_with_marker s <-> exists title rest, marker_at s = Some (title, rest).
Proof.
  unfold starts_with_marker. split; intros (title & rest & H);
    exists title, rest; now apply marker_at_iff.
Qed.

Lemma not_starts_with_marker s :
  ~ starts_with_marker s <-> marker_at s = None.
Proof.
  rewrite starts_with_marker_iff. split.
  - intros H. destruct (marker_at s) as [[title rest]|]; [|reflexivity].
    exfalso. apply H. now exists title, rest.
  - intros -> (title & rest & H). discriminate.
Qed.

Lemma scan_tokens s toks pos :
  tokens s toks -> scan linkPath pos s = map token_piece toks.
Proof.
  intros H. revert pos. induction H as [|title rest toks Ht _ IH|c s toks Hc _ IH];
    intros pos.
  - now rewrite scan_equation.
  - rewrite scan_linkPath_marker by exact Ht. simpl. now rewrite IH.
  - apply not_starts_with_marker in Hc.
    rewrite scan_linkPath_byte by exact Hc. simpl. now rewrite IH.
Qed.

(** Every text has a reading, and only one. *)
Lemma tokens_total s : exists toks, tokens s toks.
Proof.
  remember (length s) as n eqn:Hn. revert s Hn.
  induction n as [n IH] using lt_wf_ind. intros s Hn.
  destruct s as [|c s]; [exists []; constructor|].
  destruct (marker_at (c :: s)) as [[title rest]|] eqn:Hm.
  - apply marker_at_iff in Hm as [Ht Hs].
    destruct (IH (length rest)) with (s := rest) as [toks Htoks]; [|reflexivity|].
    + subst n. rewrite Hs. unfold marker. simpl. rewrite !length_app. simpl. lia.
    + exists (TMarker title :: toks). rewrite Hs. now constructor.
  - destruct (IH (length s)) with (s := s) as [toks Htoks]; [subst n; simpl; lia|reflexivity|].
    exists (TByte c :: toks). constructor; [|exact Htoks].
    now apply not_starts_with_marker.
Qed.

Lemma token_piece_inj t1 t2 : token_piece t1 = token_piece t2 -> t1 = t2.
Proof.
  destruct t1, t2; simpl; try discriminate.
  - now intros [= ->].
  - unfold marker. intros [= H]. apply app_inj_tail in H as [-> _]. reflexivity.
Qed.

Lemma map_token_piece_inj l1 l2 :
  map token_piece l1 = map token_piece l2 -> l1 = l2.
Proof.
  revert l2. induction l1 as [|a l1 IH]; intros [|b l2]; simpl; try discriminate.
  - reflexivity.
  - intros [= Ha Hl]. f_equal; [now apply token_piece_inj|now apply IH].
Qed.

Lemma tokens_unique s toks1 toks2 :
  tokens s toks1 -> tokens s toks2 -> toks1 = toks2.
Proof.
  intros H1 H2.
  apply (scan_tokens _ _ 0) in H1. apply (scan_tokens _ _ 0) in H2.
  rewrite H1 in H2. now apply map_token_piece_inj.
Qed.

Lemma tokens_src s toks : tokens s toks -> flat_map token_src toks = s.
Proof.
  induction 1 as [|title rest toks _ _ IH|c s toks _ _ IH]; simpl.
  - reflexivity.
  - now rewrite IH.
  - now rewrite IH.
Qed.

(** ** Substitution of the anchors *)

Lemma splice_tokens toks :
  Forall (fun t => match t with TMarker title => is_title title | TByte _ => True end) toks ->
  splice linkRepl (map token_piece toks) = Some (flat_map token_html toks).
Proof.
  induction 1 as [|t toks Ht _ IH]; simpl; [reflexivity|].
  destruct t as [c|title]; simpl.
  - now rewrite IH.
  - rewrite linkRepl_marker by exact Ht. now rewrite IH.
Qed.

Lemma tokens_titles s toks :
  tokens s toks ->
  Forall (fun t => match t with TMarker title => is_title title | TByte _ => True end) toks.
Proof. induction 1; constructor; auto. Qed.

Lemma ReplaceAllFunc_tokens s toks :
  tokens s toks ->
  ReplaceAllFunc linkPath s linkRepl = Some (flat_map token_html toks).
Proof.
  intros H. unfold ReplaceAllFunc. rewrite (scan_tokens _ _ 0 H).
  apply splice_tokens. eapply tokens_titles. exact H.
Qed.

(** ** Escaping and markers *)

Lemma HTMLEscapeString_app a b :
  HTMLEscapeString (a ++ b) = HTMLEscapeString a ++ HTMLEscapeString b.
Proof. unfold HTMLEscapeString. apply flat_map_app. Qed.

Lemma escape_alnum c : is_alnum c = true -> htmlEscapeByte c = [c].
Proof. each_byte c. all: intros _; reflexivity. Qed.

Lemma escape_title title :
  Forall (fun c => is_alnum c = true) title -> HTMLEscapeString title = title.
Proof.
  induction 1 as [|c title Hc _ IH]; [reflexivity|].
  change (HTMLEscapeString (c :: title))
    with (htmlEscapeByte c ++ HTMLEscapeString title).
  now rewrite escape_alnum, IH.
Qed.

Lemma escape_marker title rest :
  is_title title ->
  HTMLEscapeString (marker title ++ rest) = marker title ++ HTMLEscapeString rest.
Proof.
  intros [_ Hall]. unfold marker.
  change (("[" :: title ++ ["]"]) ++ rest) with (["["] ++ (title ++ ["]"]) ++ rest).
  rewrite !HTMLEscapeString_app, (escape_title title) by exact Hall. reflexivity.
Qed.

Lemma escape_nonempty c : htmlEscapeByte c <> [].
Proof. each_byte c. Qed.

(** The first byte of what a byte outside the alphabet of titles becomes
    is outside it too, and is a bracket only for that bracket. *)
Lemma escape_head c :
  is_alnum c = false ->
  exists h tl, htmlEscapeByte c = h :: tl /\ is_alnum h = false
               /\ (h = "[" <-> c = "[") /\ (h = "]" <-> c = "]").
Proof.
  each_byte c.
  all: intros _; eexists _, _; split; [reflexivity|]; split; [reflexivity|];
    split; split; (discriminate || reflexivity).
Qed.

(** No byte that escaping produces for a byte other than [[] is [[]. *)
Lemma escape_no_open c :
  c <> "[" -> Forall (fun b => b <> "[") (htmlEscapeByte c).
Proof.
  each_byte c.
  all: intros H; try (exfalso; apply H; reflexivity);
    repeat constructor; discriminate.
Qed.

Lemma class_run_escape s :
  class_run alnum_ranges (HTMLEscapeString s)
  = (fst (class_run alnum_ranges s), HTMLEscapeString (snd (class_run alnum_ranges s))).
Proof.
  induction s as [|y s IH]; [reflexivity|].
  change (HTMLEscapeString (y :: s)) with (htmlEscapeByte y ++ HTMLEscapeString s).
  cbn [class_run]. rewrite in_class_alnum.
  destruct (is_alnum y) eqn:Hy.
  - rewrite escape_alnum by exact Hy. cbn [app class_run].
    rewrite in_class_alnum, Hy, IH.
    destruct (class_run alnum_ranges s) as [t r]. reflexivity.
  - destruct (escape_head y Hy) as (h & tl & Heq & Hh & _).
    cbn [fst snd].
    change (HTMLEscapeString (y :: s)) with (htmlEscapeByte y ++ HTMLEscapeString s).
    rewrite Heq. cbn [app class_run]. now rewrite in_class_alnum, Hh.
Qed.

Lemma marker_at_escape s :
  marker_at (HTMLEscapeString s)
  = match marker_at s with
    | Some (title, rest) => Some (title, HTMLEscapeString rest)
    | None => None
    end.
Proof.
  destruct s as [|x s1]; [reflexivity|].
  change (HTMLEscapeString (x :: s1)) with (htmlEscapeByte x ++ HTMLEscapeString s1).
  destruct (Ascii.eqb x "[") eqn:Hx.
  - apply eqb_true in Hx. subst x.
    change (htmlEscapeByte "[" ++ HTMLEscapeString s1) with ("[" :: HTMLEscapeString s1).
    unfold marker_at. rewrite !Ascii.eqb_refl, class_run_escape.
    pose proof (class_run_stop alnum_ranges s1) as Hstop.
    destruct (class_run alnum_ranges s1) as [t r]. cbn [fst snd] in *.
    destruct t as [|y t]; [reflexivity|].
    destruct r as [|z r]; [reflexivity|].
    specialize (Hstop z r eq_refl). rewrite in_class_alnum in Hstop.
    destruct (escape_head z Hstop) as (h & tl & Heq & _ & _ & Hclose).
    change (HTMLEscapeString (z :: r)) with (htmlEscapeByte z ++ HTMLEscapeString r).
    destruct (Ascii.eqb z "]") eqn:Hz.
    + apply eqb_true in Hz. subst z. reflexivity.
    + rewrite Heq. cbn [app]. destruct (Ascii.eqb h "]") eqn:Hh; [|reflexivity].
      apply eqb_true, Hclose in Hh. apply eqb_false in Hz. contradiction.
  - assert (Hnone : marker_at (x :: s1) = None) by (unfold marker_at; now rewrite Hx).
    rewrite Hnone. apply eqb_false in Hx.
    pose proof (escape_no_open x Hx) as Hno.
    destruct (htmlEscapeByte x) as [|h tl] eqn:Heq; cbn [app].
    + now apply escape_nonempty in Heq.
    + unfold marker_at. inversion Hno as [|? ? Hh _]; subst.
      apply eqb_false in Hh. now rewrite Hh.
Qed.

Lemma tokens_plain_bytes l s toks :
  Forall (fun b => b <> "[") l -> tokens s toks ->
  tokens (l ++ s) (map TByte l ++ toks).
Proof.
  intros Hl Hs. induction Hl as [|b l Hb _ IH]; [exact Hs|].
  simpl. constructor; [|exact IH].
  apply not_starts_with_marker. unfold marker_at.
  apply eqb_false in Hb. now rewrite Hb.
Qed.

(** Escaping keeps the markers where they are. *)
Lemma tokens_escape s toks :
  tokens s toks -> tokens (HTMLEscapeString s) (flat_map token_escape toks).
Proof.
  induction 1 as [|title rest toks Ht _ IH|c s toks Hc _ IH].
  - constructor.
  - rewrite escape_marker by exact Ht. simpl. now constructor.
  - change (HTMLEscapeString (c :: s)) with (htmlEscapeByte c ++ HTMLEscapeString s).
    cbn [flat_map token_escape].
    destruct (Ascii.eqb c "[") eqn:Hopen.
    + apply eqb_true in Hopen. subst c.
      change (htmlEscapeByte "[") with ["["]. cbn [app map].
      constructor; [|exact IH].
      apply not_starts_with_marker.
      change ("[" :: HTMLEscapeString s) with (HTMLEscapeString ("[" :: s)).
      rewrite marker_at_escape.
      apply not_starts_with_marker in Hc. now rewrite Hc.
    + apply eqb_false in Hopen. apply tokens_plain_bytes; [|exact IH].
      now apply escape_no_open.
Qed.

Lemma token_escape_html toks :
  flat_map token_html (flat_map token_escape toks) = flat_map token_render toks.
Proof.
  induction toks as [|t toks IH]; [reflexivity|].
  cbn [flat_map]. rewrite flat_map_app, IH. f_equal.
  destruct t as [c|title]; simpl.
  - induction (htmlEscapeByte c) as [|b l IHl]; [reflexivity|].
    simpl. now rewrite IHl.
  - now rewrite app_nil_r.
Qed.

(** The display body, from the reading of the raw body. *)
Lemma render_tokens body toks :
  tokens body toks -> render body = Some (flat_map token_render toks).
Proof.
  intros H. unfold render.
  rewrite (ReplaceAllFunc_tokens _ _ (tokens_escape _ _ H)).
  now rewrite token_escape_html.
Qed.

(** The renderer never panics. *)
Lemma render_total body : exists display, render body = Some display.
Proof.
  destruct (tokens_total body) as [toks H].
  exists (flat_map token_render toks). apply render_tokens. exact H.
Qed.

Lemma escape_inert c :
  (htmlEscapeByte c = [c] /\ is_special c = false)
  \/ (htmlEscapeByte c ∈ entities /\ is_special c = true).
Proof.
  each_byte c.
  all: first [ left; split; reflexivity
             | right; split; [unfold entities; rewrite !elem_of_cons; tauto|reflexivity] ].
Qed.

Lemma escape_no_markup c :
  Forall (fun b => is_markup b = false) (htmlEscapeByte c).
Proof. each_byte c. all: repeat constructor. Qed.

Lemma tokens_no_open body :
  "[" ∉ body -> tokens body (map TByte body).
Proof.
  intros H. rewrite <- (app_nil_r body) at 1. rewrite <- (app_nil_r (map TByte body)).
  apply tokens_plain_bytes; [|constructor].
  apply Forall_forall. intros c Hc ->. apply H. exact Hc.
Qed.

(** ** The rendering pipeline *)

(** C1. Escaping comes before link detection: the markers are searched
    in the escaped text.  The script tags of ["<script>[X]</script>"] come
    out escaped around the anchor [<a href="/view/X">X</a>] made for
    [[X]].  The display body is made of the raw body, token by token: for
    a marker the anchor [<a href="/view/title">title</a>], in which the
    title is made of letters and digits, and for a byte outside the
    markers either the byte itself, when it is not special in HTML, or
    the entity that stands for it; so no byte of the raw body reaches the
    display body as markup, and the only markup of the display body is
    that of the anchors. *)
Theorem C1_escape_before_links :
  (forall body,
     render body = ReplaceAllFunc linkPath (HTMLEscapeString body) linkRepl)
  /\ render (str "<script>[X]</script>")
     = Some (str "&lt;script&gt;"
               ++ (str "<a href=" ++ [dquote] ++ str "/view/X" ++ [dquote]
                     ++ str ">X</a>")
               ++ str "&lt;/script&gt;")
  /\ (forall body, exists toks, tokens body toks)
  /\ (forall body toks,
        tokens body toks ->
        tokens (HTMLEscapeString body) (flat_map token_escape toks)
        /\ render body = Some (flat_map token_render toks))
  /\ (forall title,
        token_render (TMarker title)
        = str "<a href=" ++ [dquote] ++ str "/view/" ++ title ++ [dquote]
            ++ str ">" ++ title ++ str "</a>")
  /\ (forall c, token_render (TByte c) = htmlEscapeByte c)
  /\ (forall body toks title,
        tokens body toks -> TMarker title ∈ toks ->
        title <> []
        /\ Forall (fun b => is_alnum b = true /\ is_markup b = false
                            /\ is_special b = false) title)
  /\ (forall c,
        ((htmlEscapeByte c = [c] /\ is_special c = false)
         \/ (htmlEscapeByte c ∈ entities /\ is_special c = true))
        /\ Forall (fun b => is_markup b = false) (htmlEscapeByte c)).
Proof.
  split; [reflexivity|]. split; [vm_compute; reflexivity|].
  split; [exact tokens_total|]. split.
  { intros body toks H. split; [now apply tokens_escape|now apply render_tokens]. }
  split; [reflexivity|]. split; [reflexivity|]. split.
  - intros body toks title H Hin.
    pose proof (tokens_titles _ _ H) as Hall. rewrite Forall_forall in Hall.
    destruct (Hall _ Hin) as [Hne Halnum]. split; [exact Hne|].
    eapply Forall_impl; [exact Halnum|]. intros b Hb. cbn beta in Hb.
    split; [exact Hb|]. revert Hb. each_byte b. all: intros _; split; reflexivity.
  - intros c. split; [apply escape_inert|apply escape_no_markup].
Qed.

(** C2. Every marker [[title]] of the escaped body is replaced by the
    anchor [<a href="/view/title">title</a>], every other byte is kept, in
    the order of the text.  ["See [Home] and [Page2]."] has two markers and
    gives two anchors, for [Home] and [Page2], between the texts ["See "],
    [" and "] and ["."]. *)
Theorem C2_link_substitution :
  (forall body, exists toks, tokens (HTMLEscapeString body) toks)
  /\ (forall body toks,
        tokens (HTMLEscapeString body) toks ->
        flat_map token_src toks = HTMLEscapeString body
        /\ render body = Some (flat_map token_html toks))
  /\ (forall title,
        token_html (TMarker title)
        = str "<a href=" ++ [dquote] ++ str "/view/" ++ title ++ [dquote]
            ++ str ">" ++ title ++ str "</a>")
  /\ (forall c, token_html (TByte c) = [c])
  /\ tokens (str "See [Home] and [Page2].")
       (map TByte (str "See ") ++ TMarker (str "Home")
          :: map TByte (str " and ") ++ TMarker (str "Page2")
          :: map TByte (str "."))
  /\ render (str "See [Home] and [Page2].")
     = Some (str "See " ++ anchor (str "Home") ++ str " and "
               ++ anchor (str "Page2") ++ str ".").
Proof.
  split; [intros body; apply tokens_total|].
  split; [|split; [reflexivity|split; [reflexivity|split]]].
  - intros body toks H. split; [now apply tokens_src|].
    unfold render. now apply ReplaceAllFunc_tokens.
  - destruct (tokens_total (str "See [Home] and [Page2].")) as [toks H].
    pose proof (scan_tokens _ _ 0 H) as Hscan.
    assert (Heq : map token_piece toks
                  = map token_piece
                      (map TByte (str "See ") ++ TMarker (str "Home")
                         :: map TByte (str " and ") ++ TMarker (str "Page2")
                         :: map TByte (str "."))).
    { rewrite <- Hscan. vm_compute. reflexivity. }
    apply map_token_piece_inj in Heq. now rewrite <- Heq.
  - vm_compute. reflexivity.
Qed.

(** C3. The link detector matches, at a position, exactly a [[], one or
    more characters of [{a-z, A-Z, 0-9}] and a []], and captures the
    characters between the brackets; a bracketed text matches if and only
    if what it encloses is such a run.  The scan reads the text from left
    to right, takes a marker wherever one starts and goes on right after
    it.  There is no match in ["[]"] nor in ["[a b]"], which are rendered
    as they are. *)
Theorem C3_link_detector :
  (forall pos s title rest,
     (exists t, exec linkPath pos s = Some t
                /\ th_rest t = rest /\ lookup_cap 1 (th_caps t) = title)
     <-> (is_title title /\ s = marker title ++ rest))
  /\ (forall pos inside rest,
        "]" ∉ inside ->
        (exec linkPath pos ("[" :: inside ++ "]" :: rest) <> None
         <-> is_title inside))
  /\ (forall s toks,
        tokens s toks <-> scan linkPath 0 s = map token_piece toks)
  /\ scan linkPath 0 (str "[]") = [PByte "["; PByte "]"]
  /\ scan linkPath 0 (str "[a b]") = map PByte (str "[a b]")
  /\ render (str "[]") = Some (str "[]")
  /\ render (str "[a b]") = Some (str "[a b]").
Proof.
  split; [|split; [|split]].
  - intros pos s title rest. rewrite <- marker_at_iff, exec_linkPath. split.
    + intros (t & Hexec & Hrest & Hcap).
      destruct (marker_at s) as [[title' rest']|]; [|discriminate].
      injection Hexec as <-. simpl in Hrest, Hcap. now subst.
    + intros ->. eexists. split; [reflexivity|]. split; reflexivity.
  - intros pos inside rest Hin.
    rewrite <- (bracketed_marker inside rest Hin), starts_with_marker_iff.
    rewrite exec_linkPath.
    destruct (marker_at ("[" :: inside ++ "]" :: rest)) as [[title rest']|]; split.
    + intros _. now exists title, rest'.
    + discriminate.
    + congruence.
    + intros (title & rest' & Hm). discriminate.
  - intros s toks. split; [apply scan_tokens|].
    intros Hscan. destruct (tokens_total s) as [toks' H].
    rewrite (scan_tokens _ _ 0 H) in Hscan.
    apply map_token_piece_inj in Hscan. now subst toks'.
  - repeat split; vm_compute; reflexivity.
Qed.

(** C4. A raw body without brackets is rendered as its escaped form. *)
Theorem C4_no_brackets body :
  "[" ∉ body -> "]" ∉ body -> render body = Some (HTMLEscapeString body).
Proof.
  intros Hopen _. rewrite (render_tokens _ _ (tokens_no_open _ Hopen)).
  f_equal. induction body as [|c body IH]; [reflexivity|].
  simpl. rewrite IH; [reflexivity|]. intros Hin. apply Hopen. now right.
Qed.

(** C4 at a body with special characters and no bracket. *)
Lemma C4_no_brackets_witness :
  render (str "a < b & c") = Some (HTMLEscapeString (str "a < b & c")).
Proof.
  apply C4_no_brackets; apply (bool_decide_unpack _); vm_compute; exact I.
Defined.

(** ** The pattern of the router *)

Lemma strip_prefix_iff p s rest : strip_prefix p s = Some rest <-> s = p ++ rest.
Proof.
  revert s. induction p as [|c p IH]; intros s; simpl.
  - split; [now intros [= ->]|now intros ->].
  - destruct s as [|x s]; [split; discriminate|].
    destruct (Ascii.eqb x c) eqn:Hx.
    + apply eqb_true in Hx. subst x. rewrite IH. split; [now intros ->|now intros [= ->]].
    + apply eqb_false in Hx. split; [discriminate|]. intros [= -> _]. contradiction.
Qed.

Lemma step_word c w pos s caps k :
  step (word c w) pos s caps k =
  match strip_prefix (c :: w) s with
  | Some rest => k (pos + S (length w)) rest caps
  | None => None
  end.
Proof.
  revert c pos s. induction w as [|c' w IH]; intros c pos s.
  - simpl. destruct s as [|x s]; [reflexivity|].
    destruct (Ascii.eqb x c); [|reflexivity]. f_equal. lia.
  - change (step (word c (c' :: w)) pos s caps k)
      with (step (Lit c) pos s caps (fun pos' s' c'' => step (word c' w) pos' s' c'' k)).
    cbn [step strip_prefix]. destruct s as [|x s]; [reflexivity|].
    destruct (Ascii.eqb x c); [|reflexivity].
    rewrite IH. cbn [strip_prefix].
    replace (S pos + S (length w)) with (pos + S (length (c' :: w))) by (simpl; lia).
    reflexivity.
Qed.

(** The three verbs start with different letters: when one of them starts
    the text, no other alternative can. *)
Lemma step_verbs pos s caps k :
  step (Alt (word "e" (str "dit")) (Alt (word "s" (str "ave")) (word "v" (str "iew"))))
       pos s caps k =
  match strip_any routes s with
  | Some (_, rest) => k (pos + 4) rest caps
  | None => None
  end.
Proof.
  change (step (Alt (word "e" (str "dit"))
                    (Alt (word "s" (str "ave")) (word "v" (str "iew")))) pos s caps k)
    with (match step (word "e" (str "dit")) pos s caps k with
          | Some t => Some t
          | None =>
              match step (word "s" (str "ave")) pos s caps k with
              | Some t => Some t
              | None => step (word "v" (str "iew")) pos s caps k
              end
          end).
  rewrite !step_word. unfold routes. cbn [strip_any].
  change ("e" :: str "dit") with (str "edit").
  change ("s" :: str "ave") with (str "save").
  change ("v" :: str "iew") with (str "view").
  change (S (length (str "dit"))) with 4.
  change (S (length (str "ave"))) with 4.
  change (S (length (str "iew"))) with 4.
  destruct s as [|x s]; [reflexivity|].
  destruct (Ascii.eqb x "e") eqn:He.
  - apply eqb_true in He. subst x.
    replace (strip_prefix (str "save") ("e" :: s)) with (@None bytes) by reflexivity.
    replace (strip_prefix (str "view") ("e" :: s)) with (@None bytes) by reflexivity.
    destruct (strip_prefix (str "edit") ("e" :: s)); [|reflexivity].
    now destruct (k (pos + 4) l caps).
  - replace (strip_prefix (str "edit") (x :: s)) with (@None bytes)
      by (simpl; now rewrite He).
    destruct (Ascii.eqb x "s") eqn:Hs.
    + apply eqb_true in Hs. subst x.
      replace (strip_prefix (str "view") ("s" :: s)) with (@None bytes) by reflexivity.
      destruct (strip_prefix (str "save") ("s" :: s)); [|reflexivity].
      now destruct (k (pos + 4) l caps).
    + replace (strip_prefix (str "save") (x :: s)) with (@None bytes)
        by (simpl; now rewrite Hs).
      now destruct (strip_prefix (str "view") (x :: s)).
Qed.

Lemma routes_cases verb :
  verb ∈ routes <-> verb = str "edit" \/ verb = str "save" \/ verb = str "view".
Proof. unfold routes. rewrite !elem_of_cons, elem_of_nil. tauto. Qed.

Lemma strip_any_routes s verb rest :
  strip_any routes s = Some (verb, rest) <-> verb ∈ routes /\ s = verb ++ rest.
Proof.
  unfold routes. cbn [strip_any]. split.
  - destruct (strip_prefix (str "edit") s) as [r|] eqn:H1.
    { intros [= <- <-]. apply strip_prefix_iff in H1.
      split; [apply routes_cases; tauto|exact H1]. }
    destruct (strip_prefix (str "save") s) as [r|] eqn:H2.
    { intros [= <- <-]. apply strip_prefix_iff in H2.
      split; [apply routes_cases; tauto|exact H2]. }
    destruct (strip_prefix (str "view") s) as [r|] eqn:H3; [|discriminate].
    intros [= <- <-]. apply strip_prefix_iff in H3.
    split; [apply routes_cases; tauto|exact H3].
  - intros [Hin ->]. apply routes_cases in Hin.
    destruct Hin as [-> | [-> | ->]]; reflexivity.
Qed.

Lemma route_of_iff path verb title :
  route_of path = Some (verb, title)
  <-> verb ∈ routes /\ is_title title /\ path = "/" :: verb ++ "/" :: title.
Proof.
  unfold route_of. split.
  - destruct (strip_prefix (str "/") path) as [s1|] eqn:H1; [|discriminate].
    apply strip_prefix_iff in H1. subst path.
    destruct (strip_any routes s1) as [[v s2]|] eqn:H2; [|discriminate].
    apply strip_any_routes in H2 as [Hv ->].
    destruct (strip_prefix (str "/") s2) as [s3|] eqn:H3; [|discriminate].
    apply strip_prefix_iff in H3. subst s2.
    pose proof (class_run_app alnum_ranges s3) as Happ.
    pose proof (class_run_all alnum_ranges s3) as Hall.
    destruct (class_run alnum_ranges s3) as [t r]. cbn [fst snd] in *.
    destruct t as [|y t]; [discriminate|]. destruct r; [|discriminate].
    intros [= <- <-]. rewrite app_nil_r in Happ. subst s3.
    split; [exact Hv|]. split; [|reflexivity].
    split; [discriminate|].
    eapply Forall_impl; [exact Hall|]. intros c Hc. cbv beta in Hc.
    now rewrite in_class_alnum in Hc.
  - intros (Hv & [Hne Hall] & ->).
    change (strip_prefix (str "/") ("/" :: verb ++ "/" :: title))
      with (Some (verb ++ "/" :: title)).
    assert (H2 : strip_any routes (verb ++ "/" :: title) = Some (verb, "/" :: title))
      by now apply strip_any_routes.
    cbv iota beta. rewrite H2.
    change (strip_prefix (str "/") ("/" :: title)) with (Some title).
    cbv iota beta.
    rewrite class_run_all_nil.
    + destruct title; [congruence|reflexivity].
    + eapply Forall_impl; [exact Hall|]. intros c Hc. cbv beta.
      now rewrite in_class_alnum.
Qed.

Lemma exec_validPath_later pos s : exec validPath (S pos) s = None.
Proof. reflexivity. Qed.

Lemma find_validPath_later pos s : find_from validPath (S pos) s = None.
Proof.
  revert pos. induction s as [|x s IH]; intros pos; cbn [find_from];
    rewrite exec_validPath_later; [reflexivity|apply IH].
Qed.

Lemma exec_validPath path :
  exec validPath 0 path =
  match route_of path with
  | Some (verb, title) =>
      Some (mkThread (length path) [] [(2, title); (1, verb)])
  | None => None
  end.
Proof.
  unfold route_of.
  destruct path as [|x s1]; [reflexivity|].
  change (exec validPath 0 (x :: s1)) with
    (if Ascii.eqb x "/" then
       step (Alt (word "e" (str "dit"))
                 (Alt (word "s" (str "ave")) (word "v" (str "iew")))) 1 s1 []
         (fun pos' s' c' =>
            match s' with
            | [] => None
            | y :: s'' =>
                if Ascii.eqb y "/" then
                  step (Plus (Class alnum_ranges)) (S pos') s''
                       ((1, take (pos' - 1) s1) :: c')
                       (fun pos2 s2 c2 =>
                          match s2 with
                          | [] => Some (mkThread pos2 s2 ((2, take (pos2 - S pos') s'') :: c2))
                          | _ :: _ => None
                          end)
                else None
            end)
     else None).
  cbn [strip_prefix str list_ascii_of_string].
  destruct (Ascii.eqb x "/"); [|reflexivity].
  rewrite step_verbs.
  destruct (strip_any routes s1) as [[verb s2]|] eqn:H2; [|reflexivity].
  apply strip_any_routes in H2 as [Hv ->].
  destruct s2 as [|y s3]; [reflexivity|].
  destruct (Ascii.eqb y "/"); [|reflexivity].
  rewrite step_plus_class, greedy_longest by (intros; reflexivity).
  pose proof (class_run_app alnum_ranges s3) as Happ.
  destruct (class_run alnum_ranges s3) as [t r]. cbn [fst snd] in Happ.
  destruct t as [|z t]; [reflexivity|]. destruct r; [|reflexivity].
  rewrite app_nil_r in Happ. subst s3.
  assert (Hlen : length verb = 4).
  { apply routes_cases in Hv. destruct Hv as [-> | [-> | ->]]; reflexivity. }
  f_equal. f_equal.
  - cbn [length]. rewrite length_app. cbn [length]. lia.
  - f_equal.
    + f_equal. replace (S (1 + 4) + length (z :: t) - S (1 + 4)) with (length (z :: t)) by lia.
      apply firstn_all.
    + f_equal. f_equal. replace (1 + 4 - 1) with (length verb) by lia.
      now rewrite take_app_length.
Qed.

(** What the router reads in a path. *)
Lemma FindStringSubmatch_validPath path :
  FindStringSubmatch validPath path =
  match route_of path with
  | Some (verb, title) => Some [path; verb; title]
  | None => None
  end.
Proof.
  unfold FindStringSubmatch.
  destruct path as [|x s]; cbn [find_from]; rewrite exec_validPath.
  - reflexivity.
  - destruct (route_of (x :: s)) as [[verb title]|].
    + unfold submatches. cbn [th_pos th_caps]. f_equal. f_equal.
      rewrite Nat.sub_0_r. apply firstn_all.
    + apply find_validPath_later.
Qed.

(** ** Paths in canonical form *)

Lemma cleanPath_rooted p : exists rest, cleanPath p = "/" :: rest.
Proof.
  destruct p as [|c p]; [now exists []|].
  unfold cleanPath.
  assert (Hclean : forall q, exists rest, path_Clean ("/" :: q) = "/" :: rest).
  { intros q. unfold path_Clean. cbn [Ascii.eqb Bool.eqb].
    change (Ascii.eqb "/" "/") with true. cbv iota. eexists. reflexivity. }
  destruct (Ascii.eqb c "/") eqn:Hc.
  - apply eqb_true in Hc. subst c. destruct (Hclean p) as [rest ->].
    destruct (_ && _); eexists; reflexivity.
  - destruct (Hclean (c :: p)) as [rest ->].
    destruct (_ && _); eexists; reflexivity.
Qed.

Lemma has_prefix_true s p : has_prefix s p = true <-> exists rest, s = p ++ rest.
Proof.
  unfold has_prefix, bytes_eqb. rewrite bool_decide_eq_true. split.
  - intros H. exists (drop (length p) s). rewrite <- H at 1. now rewrite take_drop.
  - intros [rest ->]. now rewrite take_app_length.
Qed.

Lemma split_slash_plain b : "/" ∉ b -> split_slash b = [b].
Proof.
  induction b as [|c b IH]; intros Hb; [reflexivity|].
  apply not_elem_of_cons in Hb as [Hc Hb]. simpl.
  apply not_eq_sym, eqb_false in Hc. rewrite Hc. now rewrite IH.
Qed.

Lemma title_no_slash title : is_title title -> "/" ∉ title.
Proof.
  intros [_ Hall] Hin. rewrite Forall_forall in Hall.
  specialize (Hall _ Hin). discriminate.
Qed.

Lemma title_not_dots title :
  is_title title -> title <> [] /\ title <> str "." /\ title <> str "..".
Proof.
  intros [Hne Hall]. split; [exact Hne|].
  split; intros ->; inversion Hall as [|? ? Hc _]; discriminate.
Qed.

Lemma title_last title : is_title title -> ends_with_slash title = false.
Proof.
  intros [Hne Hall]. unfold ends_with_slash.
  destruct (last title) as [c|] eqn:Hlast; [|reflexivity].
  apply last_Some in Hlast as [l ->].
  apply Forall_app in Hall as [_ Hc]. inversion Hc as [|? ? Hc' _]; subst.
  apply eqb_false. now apply alnum_not_bracket.
Qed.

Lemma split_slash_app a rest :
  "/" ∉ a -> split_slash (a ++ "/" :: rest) = a :: split_slash rest.
Proof.
  induction a as [|c a IH]; intros Ha; [reflexivity|].
  apply not_elem_of_cons in Ha as [Hc Ha]. simpl.
  apply not_eq_sym, eqb_false in Hc. rewrite Hc. now rewrite IH.
Qed.

Lemma bytes_eqb_false a b : a <> b -> bytes_eqb a b = false.
Proof. intros H. unfold bytes_eqb. now apply bool_decide_eq_false. Qed.

Lemma bytes_eqb_refl a : bytes_eqb a a = true.
Proof. unfold bytes_eqb. now apply bool_decide_eq_true. Qed.

(** An element that cleaning keeps. *)
Lemma clean_elems_keep rooted e es out :
  e <> [] -> e <> str "." -> e <> str ".." ->
  clean_elems rooted (e :: es) out = clean_elems rooted es (e :: out).
Proof.
  intros H1 H2 H3. cbn [clean_elems].
  now rewrite !bytes_eqb_false by assumption.
Qed.

(** A rooted path of two elements that cleaning keeps is in canonical
    form. *)
Lemma cleanPath_two a b :
  "/" ∉ a -> "/" ∉ b ->
  a <> [] -> a <> str "." -> a <> str ".." ->
  b <> [] -> b <> str "." -> b <> str ".." ->
  cleanPath ("/" :: a ++ "/" :: b) = "/" :: a ++ "/" :: b.
Proof.
  intros Ha Hb Ha1 Ha2 Ha3 Hb1 Hb2 Hb3.
  assert (Hends : ends_with_slash ("/" :: a ++ "/" :: b) = false).
  { unfold ends_with_slash.
    replace ("/" :: a ++ "/" :: b) with (("/" :: a ++ ["/"]) ++ b)
      by (simpl; now rewrite <- app_assoc).
    rewrite last_app. destruct (last b) as [c|] eqn:Hl.
    - apply eqb_false. intros ->. apply Hb. apply last_Some in Hl as [l ->].
      apply elem_of_app. right. now left.
    - now apply last_None in Hl. }
  unfold cleanPath. change (Ascii.eqb "/" "/") with true. cbv iota.
  rewrite Hends. cbn [andb].
  unfold path_Clean. change (Ascii.eqb "/" "/") with true. cbv iota zeta.
  change (split_slash ("/" :: a ++ "/" :: b))
    with ([] :: split_slash (a ++ "/" :: b)).
  rewrite split_slash_app, split_slash_plain by assumption.
  change (clean_elems true [[]; a; b] []) with (clean_elems true [a; b] []).
  rewrite !clean_elems_keep by assumption.
  reflexivity.
Qed.

(** A path of the router is in canonical form. *)
Lemma cleanPath_routed verb title :
  verb ∈ routes -> is_title title ->
  cleanPath ("/" :: verb ++ "/" :: title) = "/" :: verb ++ "/" :: title.
Proof.
  intros Hv Ht.
  pose proof (title_no_slash _ Ht) as Hslash.
  destruct (title_not_dots _ Ht) as (Hne & Hdot & Hdots).
  apply routes_cases in Hv.
  destruct Hv as [-> | [-> | ->]]; apply cleanPath_two; try assumption;
    try discriminate; apply (bool_decide_unpack _); vm_compute; exact I.
Qed.

(** ** The handlers *)

(** What a redirect puts in a response that is still empty. *)
Lemma http_Redirect_fresh_eq r url code f :
  http_Redirect r url code (mkWorld f freshResponse)
  = Some (tt, mkWorld f
       (mkRW (Some code)
          (if bytes_eqb (Method r) (str "GET") || bytes_eqb (Method r) (str "HEAD")
           then <[str "Content-Type" := str "text/html; charset=utf-8"]>
                  (<[str "Location" := url]> ∅)
           else <[str "Location" := url]> ∅)
          (if bytes_eqb (Method r) (str "GET")
           then str "<a href=" ++ [dquote] ++ http_htmlEscape url ++ [dquote]
                  ++ str ">" ++ StatusText code ++ str "</a>." ++ [newline]
                  ++ [newline]
           else []))).
Proof.
  unfold http_Redirect.
  change (bool_decide (is_Some (header (resp (mkWorld f freshResponse))
                                  !! str "Content-Type"))) with false.
  cbn [negb andb].
  destruct (bytes_eqb (Method r) (str "GET")), (bytes_eqb (Method r) (str "HEAD"));
    reflexivity.
Qed.

Lemma http_Redirect_fresh r url code f :
  exists rw,
    http_Redirect r url code (mkWorld f freshResponse) = Some (tt, mkWorld f rw)
    /\ status rw = Some code
    /\ header rw !! str "Location" = Some url.
Proof.
  eexists. split; [apply http_Redirect_fresh_eq|]. split; [reflexivity|].
  cbn [header]. destruct (_ || _).
  - rewrite lookup_insert_ne by (vm_compute; discriminate). apply lookup_insert_eq.
  - apply lookup_insert_eq.
Qed.

Section ServerFacts.

Variable dataDir : bytes.
Variable ExecuteTemplate : bytes -> Page -> bytes * option error.
Variable staticFiles : handlerFunc.
Variable canonicalStatus : nat.

Lemma loadPage_eq title w :
  loadPage dataDir title w =
  match unreadable (fs w) !! (dataDir ++ title ++ str ".txt") with
  | Some e => Some (Err e, w)
  | None =>
      match files (fs w) !! (dataDir ++ title ++ str ".txt") with
      | Some data => Some (Ok (mkPage title data []), w)
      | None =>
          Some (Err (str "open " ++ (dataDir ++ title ++ str ".txt")
                       ++ str ": no such file or directory"), w)
      end
  end.
Proof.
  unfold loadPage, bind, ReadFile.
  destruct (unreadable (fs w) !! _); [reflexivity|].
  destruct (files (fs w) !! _); reflexivity.
Qed.

(** Loading a page never changes the world. *)
Lemma loadPage_frame title w res w' :
  loadPage dataDir title w = Some (res, w') -> w' = w.
Proof.
  rewrite loadPage_eq.
  destruct (unreadable (fs w) !! _); [now intros [= _ <-]|].
  destruct (files (fs w) !! _); now intros [= _ <-].
Qed.

(** C5. When the page cannot be loaded, [editHandler] renders the edit
    layout for a page with the requested title and an empty body, in the
    world as it was; when the template then runs without error, the
    answer is what the template wrote, and no error status. *)
Theorem C5_edit_missing_page r title w e w1 :
  loadPage dataDir title w = Some (Err e, w1) ->
  editHandler dataDir ExecuteTemplate r title w
  = renderTemplate ExecuteTemplate (str "edit") (mkPage title [] []) w
  /\ (forall out f,
        ExecuteTemplate (str "edit.html") (mkPage title [] []) = (out, None) ->
        w = mkWorld f freshResponse ->
        editHandler dataDir ExecuteTemplate r title w
        = Some (tt, mkWorld f (mkRW (match out with [] => None | _ :: _ => Some StatusOK end)
                                    ∅ out))).
Proof.
  intros Hload. pose proof (loadPage_frame _ _ _ _ Hload) as ->.
  assert (Hedit : editHandler dataDir ExecuteTemplate r title w
                  = renderTemplate ExecuteTemplate (str "edit") (mkPage title [] []) w).
  { unfold editHandler, bind. now rewrite Hload. }
  split; [exact Hedit|].
  intros out f Hout ->. rewrite Hedit. unfold renderTemplate.
  change (str "edit" ++ str ".html") with (str "edit.html"). rewrite Hout.
  destruct out; reflexivity.
Qed.

(** C6. [saveHandler] attempts one write, of the submitted body to the
    file of the page, and no other file changes.  When the write succeeds
    the file holds the submitted body, whatever it held before, and the
    answer is a 302 redirect to [/view/title].  When the write fails the
    answer is the status 500 with the message of the error, without a
    redirect, and the write is not tried again; the file is as before
    when it could not be opened, and holds what reached it of the
    submitted body when the write stopped after the file was opened. *)
Theorem C6_save_handler r title f :
  let content := FormValue r (str "body") in
  let name := dataDir ++ title ++ str ".txt" in
  exists w',
    saveHandler dataDir r title (mkWorld f freshResponse) = Some (tt, w')
    /\ journal (fs w') = (name, content) :: journal f
    /\ denied (fs w') = denied f
    /\ unreadable (fs w') = unreadable f
    /\ faulty (fs w') = faulty f
    /\ (forall other, other <> name ->
                      files (fs w') !! other = files f !! other)
    /\ match denied f !! name, faulty f !! name with
       | Some e, _ =>
           files (fs w') = files f
           /\ status (resp w') = Some StatusInternalServerError
           /\ body (resp w') = e ++ [newline]
           /\ header (resp w') !! str "Location" = None
       | None, Some (n, e) =>
           files (fs w') = <[name:=take n content]> (files f)
           /\ status (resp w') = Some StatusInternalServerError
           /\ body (resp w') = e ++ [newline]
           /\ header (resp w') !! str "Location" = None
       | None, None =>
           files (fs w') = <[name:=content]> (files f)
           /\ status (resp w') = Some StatusFound
           /\ header (resp w') !! str "Location" = Some (str "/view/" ++ title)
       end.
Proof.
  intros content name. unfold saveHandler, save, bind, WriteFile.
  cbn [Title Body fs resp]. fold content. fold name.
  destruct (denied f !! name) as [e|]; [|destruct (faulty f !! name) as [[n e]|]].
  - eexists. split; [reflexivity|]. cbn. repeat split; reflexivity.
  - eexists. split; [reflexivity|]. cbn. repeat split; try reflexivity.
    intros other Hne. now apply lookup_insert_ne.
  - destruct (http_Redirect_fresh r (str "/view/" ++ title) StatusFound
                (written f name content (Some content)))
      as (rw & Hredirect & Hstatus & Hlocation).
    eexists. split; [exact Hredirect|].
    cbn [fs resp written files denied unreadable faulty journal].
    repeat split; try assumption.
    intros other Hne. now apply lookup_insert_ne.
Qed.

(** C7. A successful [save] is one write, which puts exactly the body of
    the page in the file [title.txt] of the page directory and changes no
    other file; a [loadPage] that follows and succeeds returns those
    bytes, and it succeeds whenever the file can be read. *)
Theorem C7_save_load title content display w w' :
  save dataDir (mkPage title content display) w = Some (None, w') ->
  files (fs w') = <[dataDir ++ title ++ str ".txt" := content]> (files (fs w))
  /\ journal (fs w') = (dataDir ++ title ++ str ".txt", content) :: journal (fs w)
  /\ files (fs w') !! (dataDir ++ title ++ str ".txt") = Some content
  /\ (forall name, name <> dataDir ++ title ++ str ".txt" ->
                   files (fs w') !! name = files (fs w) !! name)
  /\ (forall p w'', loadPage dataDir title w' = Some (Ok p, w'') ->
                    p = mkPage title content [] /\ w'' = w')
  /\ (unreadable (fs w) !! (dataDir ++ title ++ str ".txt") = None ->
      loadPage dataDir title w' = Some (Ok (mkPage title content []), w')).
Proof.
  unfold save, WriteFile. cbn [Title Body].
  destruct (denied (fs w) !! _) as [e|] eqn:Hden; [discriminate|].
  destruct (faulty (fs w) !! _) as [[n e]|] eqn:Hfault; [discriminate|].
  intros [= <-]. rewrite loadPage_eq. cbn [fs written files unreadable].
  rewrite lookup_insert_eq. repeat split.
  - intros name Hne. now apply lookup_insert_ne.
  - destruct (unreadable (fs w) !! _); congruence.
  - destruct (unreadable (fs w) !! _); congruence.
  - intros Hread. now rewrite Hread.
Qed.

(** C8. [makeHandler] calls the inner handler exactly for the paths
    [/verb/title] with [verb] one of [edit], [save], [view] and [title]
    a non-empty run of letters and digits, and gives it that title, the
    second group of the match; for every other path the answer is that
    of [http.NotFound], the status 404, whatever the inner handler is. *)
Theorem C8_makeHandler (fn : Request -> bytes -> IO unit) r w :
  (exists verb title,
      verb ∈ routes /\ is_title title
      /\ URL_Path r = "/" :: verb ++ "/" :: title
      /\ FindStringSubmatch validPath (URL_Path r) = Some [URL_Path r; verb; title]
      /\ makeHandler fn r w = fn r title w)
  \/ ((forall title, ~ routed (URL_Path r) title)
      /\ FindStringSubmatch validPath (URL_Path r) = None
      /\ makeHandler fn r w = http_NotFound r w
      /\ http_NotFound r (mkWorld (fs w) freshResponse)
         = Some (tt, mkWorld (fs w)
                       (mkRW (Some StatusNotFound)
                             (<[str "X-Content-Type-Options" := str "nosniff"]>
                                (<[str "Content-Type" := str "text/plain; charset=utf-8"]> ∅))
                             (str "404 page not found" ++ [newline])))).
Proof.
  unfold makeHandler. rewrite FindStringSubmatch_validPath.
  destruct (route_of (URL_Path r)) as [[verb title]|] eqn:Hroute.
  - left. exists verb, title. apply route_of_iff in Hroute as (Hv & Ht & Hp).
    repeat split; try assumption; apply Ht.
  - right. repeat split.
    intros title (verb & Hv & Ht & Hp).
    assert (Hsome : route_of (URL_Path r) = Some (verb, title))
      by now apply route_of_iff.
    congruence.
Qed.

(** ** Routing *)

Lemma mainMux_eq :
  mainMux dataDir ExecuteTemplate staticFiles =
  Some (mkMux
          (<[str "/static/" := staticFiles]>
             (<[str "/save/" := makeHandler (saveHandler dataDir)]>
                (<[str "/edit/" := makeHandler (editHandler dataDir ExecuteTemplate)]>
                   (<[str "/view/" := makeHandler (viewHandler dataDir ExecuteTemplate)]>
                      (<[str "/" := indexHandler]> ∅)))))
          [(str "/static/", staticFiles);
           (str "/view/", makeHandler (viewHandler dataDir ExecuteTemplate));
           (str "/edit/", makeHandler (editHandler dataDir ExecuteTemplate));
           (str "/save/", makeHandler (saveHandler dataDir));
           (str "/", indexHandler)]).
Proof. reflexivity. Qed.

Lemma not_under_prefix path t :
  ~ under path -> t ∈ subtrees -> has_prefix path t = false.
Proof.
  intros Hu Ht. destruct (has_prefix path t) eqn:Hp; [|reflexivity].
  exfalso. apply Hu. now exists t.
Qed.

Lemma not_under_ne path t : ~ under path -> t ∈ subtrees -> t <> path.
Proof.
  intros Hu Ht ->. apply Hu. exists path. split; [exact Ht|].
  apply has_prefix_true. exists []. now rewrite app_nil_r.
Qed.

Lemma not_root_ne path t :
  path ∉ subtree_roots -> t ∈ subtree_roots -> t ++ str "/" <> path ++ str "/".
Proof.
  intros Hp Ht Heq. apply app_inj_tail in Heq as [<- _]. contradiction.
Qed.

(** C10, as the program has it.  A request whose path is in canonical
    form, is not the root of a registered subtree written without its
    slash, and is not under a registered subtree, is answered by
    [indexHandler]: a 302 redirect to [/view/index].  The path [/] is
    one of them. *)
Theorem C10_index_redirect r f :
  cleanPath (URL_Path r) = URL_Path r ->
  URL_Path r ∉ subtree_roots ->
  ~ under (URL_Path r) ->
  exists rw,
    serve dataDir ExecuteTemplate staticFiles canonicalStatus r (mkWorld f freshResponse)
    = Some (tt, mkWorld f rw)
    /\ status rw = Some StatusFound
    /\ header rw !! str "Location" = Some (str "/view/index").
Proof.
  intros Hclean Hroot Hunder.
  enough (Hserve : serve dataDir ExecuteTemplate staticFiles canonicalStatus r (mkWorld f freshResponse)
                   = indexHandler r (mkWorld f freshResponse)).
  { rewrite Hserve. apply http_Redirect_fresh. }
  destruct (cleanPath_rooted (URL_Path r)) as [rest Hrest].
  rewrite Hclean in Hrest.
  unfold serve, bind. rewrite mainMux_eq. cbn [lift_option ret].
  unfold ServeHTTP, mux_Handler. rewrite Hclean.
  assert (Hsub : forall t, t ∈ subtrees -> t <> URL_Path r)
    by (intros t Ht; now apply not_under_ne).
  assert (Hpre : forall t, t ∈ subtrees -> has_prefix (URL_Path r) t = false)
    by (intros t Ht; now apply not_under_prefix).
  assert (Hin : forall t, t ∈ subtree_roots
                          -> t ++ str "/" <> URL_Path r ++ str "/")
    by (intros t Ht; now apply not_root_ne).
  assert (Hshould : shouldRedirect
            (mkMux
               (<[str "/static/" := staticFiles]>
                  (<[str "/save/" := makeHandler (saveHandler dataDir)]>
                     (<[str "/edit/" := makeHandler (editHandler dataDir ExecuteTemplate)]>
                        (<[str "/view/" := makeHandler (viewHandler dataDir ExecuteTemplate)]>
                           (<[str "/" := indexHandler]> ∅)))))
               [(str "/static/", staticFiles);
                (str "/view/", makeHandler (viewHandler dataDir ExecuteTemplate));
                (str "/edit/", makeHandler (editHandler dataDir ExecuteTemplate));
                (str "/save/", makeHandler (saveHandler dataDir));
                (str "/", indexHandler)]) (URL_Path r) = false).
  { unfold shouldRedirect. cbn [mux_m].
    destruct (_ !! URL_Path r); [reflexivity|].
    rewrite Hrest. rewrite <- Hrest.
    rewrite lookup_insert_ne by (apply (Hin (str "/static")); in_list).
    rewrite lookup_insert_ne by (apply (Hin (str "/save")); in_list).
    rewrite lookup_insert_ne by (apply (Hin (str "/edit")); in_list).
    rewrite lookup_insert_ne by (apply (Hin (str "/view")); in_list).
    rewrite lookup_insert_ne.
    - now rewrite lookup_empty.
    - rewrite Hrest. intros [= Heq]. now destruct rest. }
  rewrite Hshould.
  assert (Heqb : bytes_eqb (URL_Path r) (URL_Path r) = true)
    by (unfold bytes_eqb; now apply bool_decide_eq_true).
  rewrite Heqb. cbn [negb].
  assert (Hhandler : mux_handler
            (mkMux
               (<[str "/static/" := staticFiles]>
                  (<[str "/save/" := makeHandler (saveHandler dataDir)]>
                     (<[str "/edit/" := makeHandler (editHandler dataDir ExecuteTemplate)]>
                        (<[str "/view/" := makeHandler (viewHandler dataDir ExecuteTemplate)]>
                           (<[str "/" := indexHandler]> ∅)))))
               [(str "/static/", staticFiles);
                (str "/view/", makeHandler (viewHandler dataDir ExecuteTemplate));
                (str "/edit/", makeHandler (editHandler dataDir ExecuteTemplate));
                (str "/save/", makeHandler (saveHandler dataDir));
                (str "/", indexHandler)]) (URL_Path r) = indexHandler).
  { unfold mux_handler, mux_match. cbn [mux_m mux_es].
    rewrite lookup_insert_ne by (apply Hsub; in_list).
    rewrite lookup_insert_ne by (apply Hsub; in_list).
    rewrite lookup_insert_ne by (apply Hsub; in_list).
    rewrite lookup_insert_ne by (apply Hsub; in_list).
    rewrite lookup_insert. case_decide; [reflexivity|].
    rewrite lookup_empty. cbn [match_es].
    rewrite (Hpre (str "/static/")), (Hpre (str "/view/")),
      (Hpre (str "/edit/")), (Hpre (str "/save/")) by in_list.
    assert (Hslash : has_prefix (URL_Path r) (str "/") = true)
      by (apply has_prefix_true; now exists rest).
    now rewrite Hslash. }
  rewrite Hhandler. now destruct (bytes_eqb (Method r) (str "CONNECT")).
Qed.

(** ** The router and the multiplexer together *)

Lemma makeHandler_routed (fn : Request -> bytes -> IO unit) r w verb title :
  verb ∈ routes -> is_title title ->
  URL_Path r = "/" :: verb ++ "/" :: title ->
  makeHandler fn r w = fn r title w.
Proof.
  intros Hv Ht Hp. unfold makeHandler. rewrite FindStringSubmatch_validPath.
  assert (Hroute : route_of (URL_Path r) = Some (verb, title))
    by now apply route_of_iff.
  now rewrite Hroute.
Qed.

Lemma has_prefix_false s p :
  (forall rest, s <> p ++ rest) -> has_prefix s p = false.
Proof.
  intros H. destruct (has_prefix s p) eqn:Hp; [|reflexivity].
  apply has_prefix_true in Hp as [rest ->]. now destruct (H rest).
Qed.

Lemma has_prefix_app p rest : has_prefix (p ++ rest) p = true.
Proof. apply has_prefix_true. now exists rest. Qed.

(** X1. Viewing a page that cannot be loaded is answered by a 302
    redirect to the edit form of the same title, and leaves the store as
    it is. *)
Theorem view_missing_page r title f e w1 :
  loadPage dataDir title (mkWorld f freshResponse) = Some (Err e, w1) ->
  exists rw,
    viewHandler dataDir ExecuteTemplate r title (mkWorld f freshResponse)
    = Some (tt, mkWorld f rw)
    /\ status rw = Some StatusFound
    /\ header rw !! str "Location" = Some (str "/edit/" ++ title).
Proof.
  intros Hload. pose proof (loadPage_frame _ _ _ _ Hload) as ->.
  unfold viewHandler, bind. rewrite Hload. apply http_Redirect_fresh.
Qed.

(** X2. The renderer is total: on every body the callback finds group 1
    of its match, so indexing the match never panics, and every page gets
    a display body. *)
Theorem renderer_total :
  (forall body, exists display, render body = Some display)
  /\ (forall title, is_title title -> linkRepl (marker title) = Some (anchor title))
  /\ (forall p w, exists q, displayPage p w = Some (q, w)).
Proof.
  split; [exact render_total|]. split; [exact linkRepl_marker|].
  intros p w. destruct (render_total (Body p)) as [display Hr].
  eexists. unfold displayPage, bind. rewrite Hr. reflexivity.
Qed.

(** X3. A request whose path the router accepts reaches the handler of
    its verb, with the title of the path: the multiplexer neither
    redirects it nor sends it elsewhere. *)
Theorem serve_routed r w verb title :
  verb ∈ routes -> is_title title ->
  URL_Path r = "/" :: verb ++ "/" :: title ->
  serve dataDir ExecuteTemplate staticFiles canonicalStatus r w
  = routeHandler dataDir ExecuteTemplate verb r title w.
Proof.
  intros Hv Ht Hp.
  pose proof (cleanPath_routed _ _ Hv Ht) as Hclean.
  destruct Ht as [Hne Hall].
  unfold serve, bind. rewrite mainMux_eq. cbn [lift_option ret].
  unfold ServeHTTP, mux_Handler. rewrite Hp, Hclean, bytes_eqb_refl.
  cbn [negb].
  set (p := "/" :: verb ++ "/" :: title) in *.
  assert (Hkeys : forall k, k ∈ str "/" :: subtrees -> k <> p /\ k <> p ++ str "/").
  { intros k Hk. unfold subtrees in Hk. rewrite !elem_of_cons, elem_of_nil in Hk.
    apply routes_cases in Hv. subst p.
    destruct Hk as [-> | [-> | [-> | [-> | [-> | []]]]]];
      destruct Hv as [-> | [-> | ->]]; split; try discriminate;
      intros [= Heq]; destruct title; discriminate || congruence. }
  assert (Hshould : forall mux_es0,
     shouldRedirect
       (mkMux
          (<[str "/static/" := staticFiles]>
             (<[str "/save/" := makeHandler (saveHandler dataDir)]>
                (<[str "/edit/" := makeHandler (editHandler dataDir ExecuteTemplate)]>
                   (<[str "/view/" := makeHandler (viewHandler dataDir ExecuteTemplate)]>
                      (<[str "/" := indexHandler]> ∅))))) mux_es0) p = false).
  { intros mux_es0. unfold shouldRedirect. cbn [mux_m].
    rewrite !lookup_insert_ne by (apply Hkeys; in_list).
    rewrite lookup_empty. now subst p. }
  rewrite !Hshould.
  assert (Hhandler :
     mux_handler
       (mkMux
          (<[str "/static/" := staticFiles]>
             (<[str "/save/" := makeHandler (saveHandler dataDir)]>
                (<[str "/edit/" := makeHandler (editHandler dataDir ExecuteTemplate)]>
                   (<[str "/view/" := makeHandler (viewHandler dataDir ExecuteTemplate)]>
                      (<[str "/" := indexHandler]> ∅)))))
          [(str "/static/", staticFiles);
           (str "/view/", makeHandler (viewHandler dataDir ExecuteTemplate));
           (str "/edit/", makeHandler (editHandler dataDir ExecuteTemplate));
           (str "/save/", makeHandler (saveHandler dataDir));
           (str "/", indexHandler)]) p
     = makeHandler (routeHandler dataDir ExecuteTemplate verb)).
  { unfold mux_handler, mux_match. cbn [mux_m mux_es].
    rewrite !lookup_insert_ne by (apply Hkeys; in_list).
    rewrite lookup_empty. cbn [match_es]. subst p.
    apply routes_cases in Hv.
    destruct Hv as [-> | [-> | ->]].
    - rewrite (has_prefix_false _ (str "/static/")) by (intros rest; discriminate).
      rewrite (has_prefix_false _ (str "/view/")) by (intros rest; discriminate).
      change ("/" :: str "edit" ++ "/" :: title) with (str "/edit/" ++ title).
      now rewrite has_prefix_app.
    - rewrite (has_prefix_false _ (str "/static/")) by (intros rest; discriminate).
      rewrite (has_prefix_false _ (str "/view/")) by (intros rest; discriminate).
      rewrite (has_prefix_false _ (str "/edit/")) by (intros rest; discriminate).
      change ("/" :: str "save" ++ "/" :: title) with (str "/save/" ++ title).
      now rewrite has_prefix_app.
    - rewrite (has_prefix_false _ (str "/static/")) by (intros rest; discriminate).
      change ("/" :: str "view" ++ "/" :: title) with (str "/view/" ++ title).
      now rewrite has_prefix_app. }
  rewrite Hhandler.
  assert (Hmake : makeHandler (routeHandler dataDir ExecuteTemplate verb) r w
                  = routeHandler dataDir ExecuteTemplate verb r title w)
    by (apply (makeHandler_routed _ r w verb title); [exact Hv|now split|exact Hp]).
  now destruct (bytes_eqb (Method r) (str "CONNECT")).
Qed.

End ServerFacts.

(** ** The theorems at the small instance *)

(** C5 in the store without files: the page is not found, and the edit
    layout is rendered for the blank page. *)
Lemma C5_edit_missing_page_witness :
  loadPage (str "data/") (str "NoSuchPage") (mkWorld emptyFS freshResponse)
  = Some (Err (str "open data/NoSuchPage.txt: no such file or directory"),
          mkWorld emptyFS freshResponse)
  /\ editHandler (str "data/") plainTemplate (get (str "/edit/NoSuchPage"))
       (str "NoSuchPage") (mkWorld emptyFS freshResponse)
     = Some (tt, mkWorld emptyFS
                   (mkRW (Some StatusOK) ∅ (str "edit.html: NoSuchPage: : "))).
Proof.
  assert (Hload :
    loadPage (str "data/") (str "NoSuchPage") (mkWorld emptyFS freshResponse)
    = Some (Err (str "open data/NoSuchPage.txt: no such file or directory"),
            mkWorld emptyFS freshResponse)) by (vm_compute; reflexivity).
  split; [exact Hload|].
  destruct (C5_edit_missing_page (str "data/") plainTemplate
              (get (str "/edit/NoSuchPage")) _ _ _ _ Hload) as [_ H].
  exact (H _ _ eq_refl eq_refl).
Defined.

(** C7 at the page that [main] of the first variant saves and loads. *)
Lemma C7_save_load_witness :
  save [] (mkPage (str "TestPage") (str "This is a sample page.") [])
       (mkWorld emptyFS freshResponse)
  = Some (None,
          mkWorld (mkFS {[ str "TestPage.txt" := str "This is a sample page." ]} ∅ ∅ ∅
                        [(str "TestPage.txt", str "This is a sample page.")])
                  freshResponse)
  /\ loadPage [] (str "TestPage")
       (mkWorld (mkFS {[ str "TestPage.txt" := str "This is a sample page." ]} ∅ ∅ ∅
                      [(str "TestPage.txt", str "This is a sample page.")])
                freshResponse)
     = Some (Ok (mkPage (str "TestPage") (str "This is a sample page.") []),
             mkWorld (mkFS {[ str "TestPage.txt" := str "This is a sample page." ]} ∅ ∅ ∅
                           [(str "TestPage.txt", str "This is a sample page.")])
                     freshResponse).
Proof.
  assert (Hsave :
    save [] (mkPage (str "TestPage") (str "This is a sample page.") [])
         (mkWorld emptyFS freshResponse)
    = Some (None,
            mkWorld (mkFS {[ str "TestPage.txt" := str "This is a sample page." ]} ∅ ∅ ∅
                          [(str "TestPage.txt", str "This is a sample page.")])
                    freshResponse)) by reflexivity.
  split; [exact Hsave|].
  destruct (C7_save_load [] _ _ _ _ _ Hsave) as (_ & _ & _ & _ & _ & Hload).
  apply Hload. reflexivity.
Defined.

(** X1 in the store without files. *)
Lemma view_missing_page_witness :
  exists rw,
    viewHandler (str "data/") plainTemplate (get (str "/view/NoSuchPage"))
      (str "NoSuchPage") (mkWorld emptyFS freshResponse)
    = Some (tt, mkWorld emptyFS rw)
    /\ status rw = Some StatusFound
    /\ header rw !! str "Location" = Some (str "/edit/NoSuchPage").
Proof.
  apply (view_missing_page (str "data/") plainTemplate
           (get (str "/view/NoSuchPage")) (str "NoSuchPage") emptyFS
           (str "open data/NoSuchPage.txt: no such file or directory")
           (mkWorld emptyFS freshResponse)).
  vm_compute. reflexivity.
Defined.

Lemma title_Home : is_title (str "Home").
Proof. split; [discriminate|]. repeat constructor. Qed.

(** X3 at the path [/edit/Home]. *)
Lemma serve_routed_witness :
  serve (str "data/") plainTemplate fixedStatic StatusMovedPermanently (get (str "/edit/Home"))
        (mkWorld emptyFS freshResponse)
  = editHandler (str "data/") plainTemplate (get (str "/edit/Home")) (str "Home")
      (mkWorld emptyFS freshResponse).
Proof.
  apply (serve_routed (str "data/") plainTemplate fixedStatic StatusMovedPermanently
           (get (str "/edit/Home")) (mkWorld emptyFS freshResponse)
           (str "edit") (str "Home")).
  - apply routes_cases. left. reflexivity.
  - exact title_Home.
  - reflexivity.
Defined.

(** A path under no subtree, by computation. *)
Lemma not_under_check path :
  forallb (fun t => negb (has_prefix path t)) subtrees = true -> ~ under path.
Proof.
  intros Hall (t & Ht & Hp). rewrite forallb_forall in Hall.
  apply list_elem_of_In in Ht. specialize (Hall t Ht). now rewrite Hp in Hall.
Qed.

(** C10 at the paths [/] and [/about/team]. *)
Lemma C10_index_redirect_witness :
  (exists rw,
     serve (str "data/") plainTemplate fixedStatic StatusMovedPermanently (get (str "/"))
           (mkWorld emptyFS freshResponse)
     = Some (tt, mkWorld emptyFS rw)
     /\ status rw = Some StatusFound
     /\ header rw !! str "Location" = Some (str "/view/index"))
  /\ (exists rw,
        serve (str "data/") plainTemplate fixedStatic StatusMovedPermanently (get (str "/about/team"))
              (mkWorld emptyFS freshResponse)
        = Some (tt, mkWorld emptyFS rw)
        /\ status rw = Some StatusFound
        /\ header rw !! str "Location" = Some (str "/view/index")).
Proof.
  split; apply C10_index_redirect.
  - reflexivity.
  - apply (bool_decide_unpack _). vm_compute. exact I.
  - apply not_under_check. reflexivity.
  - vm_compute. reflexivity.
  - apply (bool_decide_unpack _). vm_compute. exact I.
  - apply not_under_check. vm_compute. reflexivity.
Defined.

(** What the server answers to a request, as far as the redirect goes: the
    status and the [Location] header. *)
Lemma serve_subtree_root code :
  (fun o => match o with
            | Some (_, w) => Some (status (resp w), header (resp w) !! str "Location")
            | None => None
            end)
    (serve (str "data/") plainTemplate fixedStatic code (get (str "/view"))
           (mkWorld emptyFS freshResponse))
  = Some (Some code, Some (str "/view/")).
Proof. vm_compute. reflexivity. Qed.

Lemma serve_unclean_path code :
  (fun o => match o with
            | Some (_, w) => Some (status (resp w), header (resp w) !! str "Location")
            | None => None
            end)
    (serve (str "data/") plainTemplate fixedStatic code (get (str "/a//b"))
           (mkWorld emptyFS freshResponse))
  = Some (Some code, Some (str "/a/b")).
Proof. vm_compute. reflexivity. Qed.

(** The target of the redirect is percent-encoded and carries the query
    of the request. *)
Lemma serve_unclean_escaped code :
  (fun o => match o with
            | Some (_, w) => Some (status (resp w), header (resp w) !! str "Location")
            | None => None
            end)
    (serve (str "data/") plainTemplate fixedStatic code
           (mkRequest (str "POST") (str "/a b//c") (str "q=1") ∅)
           (mkWorld emptyFS freshResponse))
  = Some (Some code, Some (str "/a%20b/c?q=1")).
Proof. vm_compute. reflexivity. Qed.

(** C10, as it is written, does not hold, whatever the status of the
    redirects of the multiplexer is: [/a//b] is under none of the four
    subtrees, and neither is [/view], but the first is answered by a
    redirect to [/a/b] and the second by a redirect to [/view/], before
    any handler of the program runs. *)
Lemma C10_counterexample :
  ~ (exists code,
       forall r f,
         ~ under (URL_Path r) ->
         exists rw,
           serve (str "data/") plainTemplate fixedStatic code r (mkWorld f freshResponse)
           = Some (tt, mkWorld f rw)
           /\ status rw = Some StatusFound
           /\ header rw !! str "Location" = Some (str "/view/index")).
Proof.
  intros [code H].
  assert (Hu : ~ under (URL_Path (get (str "/a//b"))))
    by (apply not_under_check; vm_compute; reflexivity).
  destruct (H (get (str "/a//b")) emptyFS Hu) as (rw & Hserve & _ & Hlocation).
  pose proof (serve_unclean_path code) as Hreal. rewrite Hserve in Hreal.
  cbn [resp] in Hreal. rewrite Hlocation in Hreal. discriminate.
Qed.

(** * More of the program *)

(** ** What leaves the file store alone *)

Lemma preserves_ret {A} (a : A) : preserves_fs (ret a).
Proof. intros w a' w' [= <- <-]. reflexivity. Qed.

Lemma preserves_panic {A} : preserves_fs (@panic A).
Proof. intros w a w'. discriminate. Qed.

Lemma preserves_bind {A B} (m : IO A) (k : A -> IO B) :
  preserves_fs m -> (forall a, preserves_fs (k a)) -> preserves_fs (bind m k).
Proof.
  intros Hm Hk w b w'. unfold bind.
  destruct (m w) as [[a w1]|] eqn:Hrun; [|discriminate].
  intros Hrest. rewrite (Hk a _ _ _ Hrest). exact (Hm _ _ _ Hrun).
Qed.

Lemma preserves_lift_option {A} (o : option A) : preserves_fs (lift_option o).
Proof. destruct o; [apply preserves_ret|apply preserves_panic]. Qed.

Lemma preserves_Header_Set k v : preserves_fs (Header_Set k v).
Proof.
  intros w a w'. unfold Header_Set.
  destruct (status (resp w)); intros [= _ <-]; reflexivity.
Qed.

Lemma preserves_WriteHeader code : preserves_fs (WriteHeader code).
Proof.
  intros w a w'. unfold WriteHeader.
  destruct (status (resp w)); intros [= _ <-]; reflexivity.
Qed.

Lemma preserves_Write data : preserves_fs (Write data).
Proof.
  unfold Write. apply preserves_bind; [apply preserves_WriteHeader|].
  intros _ w a w' [= _ <-]. reflexivity.
Qed.

Create HintDb frame.
#[local] Hint Resolve preserves_ret preserves_panic preserves_lift_option
  preserves_Header_Set preserves_WriteHeader preserves_Write : frame.

Ltac frame :=
  repeat first [ solve [auto with frame] | apply preserves_bind; [|intros ?] ].

Lemma preserves_http_Error msg code : preserves_fs (http_Error msg code).
Proof. unfold http_Error. frame. Qed.

Lemma preserves_http_NotFound r : preserves_fs (http_NotFound r).
Proof. apply preserves_http_Error. Qed.

Lemma preserves_http_Redirect r url code : preserves_fs (http_Redirect r url code).
Proof.
  intros w a w' H. unfold http_Redirect in H. cbv zeta in H.
  set (hadCT := bool_decide _) in H. clearbody hadCT.
  match type of H with
  | ?m w = _ => assert (Hm : preserves_fs m)
  end.
  { frame;
      match goal with
      | |- preserves_fs (if ?c then _ else _) => destruct c
      end; auto with frame. }
  exact (Hm _ _ _ H).
Qed.

Lemma preserves_ReadFile name : preserves_fs (ReadFile name).
Proof.
  intros w a w'. unfold ReadFile.
  destruct (unreadable (fs w) !! name); [now intros [= _ <-]|].
  destruct (files (fs w) !! name); now intros [= _ <-].
Qed.

#[local] Hint Resolve preserves_http_Error preserves_http_NotFound
  preserves_http_Redirect preserves_ReadFile : frame.

Lemma runs_ret {A} (a : A) : never_panics (ret a).
Proof. intros w. now exists a, w. Qed.

Lemma runs_bind {A B} (m : IO A) (k : A -> IO B) :
  never_panics m -> (forall a, never_panics (k a)) -> never_panics (bind m k).
Proof.
  intros Hm Hk w. destruct (Hm w) as (a & w1 & Hrun).
  destruct (Hk a w1) as (b & w2 & Hrest). exists b, w2.
  unfold bind. now rewrite Hrun.
Qed.

Lemma runs_Header_Set k v : never_panics (Header_Set k v).
Proof. intros w. unfold Header_Set. destruct (status (resp w)); eauto. Qed.

Lemma runs_WriteHeader code : never_panics (WriteHeader code).
Proof. intros w. unfold WriteHeader. destruct (status (resp w)); eauto. Qed.

Lemma runs_Write data : never_panics (Write data).
Proof.
  unfold Write. apply runs_bind; [apply runs_WriteHeader|].
  intros _ w. eauto.
Qed.

Lemma runs_http_Error msg code : never_panics (http_Error msg code).
Proof.
  unfold http_Error.
  apply runs_bind; [apply runs_Header_Set|intros _].
  apply runs_bind; [apply runs_Header_Set|intros _].
  apply runs_bind; [apply runs_WriteHeader|intros _].
  apply runs_Write.
Qed.

(** [http.Error] always answers, and leaves the store alone. *)
Lemma http_Error_runs msg code w :
  exists w', http_Error msg code w = Some (tt, w') /\ fs w' = fs w.
Proof.
  destruct (runs_http_Error msg code w) as ([] & w' & Hrun).
  exists w'. split; [exact Hrun|].
  exact (preserves_http_Error _ _ _ _ _ Hrun).
Qed.

Lemma runs_http_Redirect r url code : never_panics (http_Redirect r url code).
Proof.
  intros w. unfold http_Redirect. cbv zeta.
  set (hadCT := bool_decide _). clearbody hadCT.
  match goal with
  | |- exists a w', ?m w = _ => assert (Hm : never_panics m)
  end.
  { apply runs_bind; [apply runs_Header_Set|intros _].
    apply runs_bind; [destruct (_ && _); [apply runs_Header_Set|apply runs_ret]|intros _].
    apply runs_bind; [apply runs_WriteHeader|intros _].
    destruct (_ && _); [apply runs_Write|apply runs_ret]. }
  exact (Hm w).
Qed.

Section MoreFacts.

Variable dataDir : bytes.
Variable ExecuteTemplate : bytes -> Page -> bytes * option error.
Variable staticFiles : handlerFunc.

Lemma preserves_loadPage title : preserves_fs (loadPage dataDir title).
Proof. unfold loadPage. frame. destruct a; auto with frame. Qed.

Lemma runs_loadPage title : never_panics (loadPage dataDir title).
Proof.
  intros w. rewrite loadPage_eq.
  destruct (unreadable (fs w) !! _); [eauto|]. destruct (files (fs w) !! _); eauto.
Qed.

Lemma preserves_renderTemplate tmpl p :
  preserves_fs (renderTemplate ExecuteTemplate tmpl p).
Proof.
  unfold renderTemplate. destruct (ExecuteTemplate _ p) as [out err].
  apply preserves_bind; [destruct out; auto with frame|].
  intros _. destruct err; auto with frame.
Qed.

Lemma runs_renderTemplate tmpl p :
  never_panics (renderTemplate ExecuteTemplate tmpl p).
Proof.
  unfold renderTemplate. destruct (ExecuteTemplate _ p) as [out err].
  apply runs_bind; [destruct out; [apply runs_ret|apply runs_Write]|].
  intros _. destruct err; [apply runs_http_Error|apply runs_ret].
Qed.

Lemma preserves_displayPage p : preserves_fs (displayPage p).
Proof. unfold displayPage. frame. Qed.

Lemma runs_displayPage p : never_panics (displayPage p).
Proof.
  intros w. destruct (render_total (Body p)) as [display Hr].
  unfold displayPage, bind. rewrite Hr. cbn. eauto.
Qed.

Lemma preserves_viewHandler r title :
  preserves_fs (viewHandler dataDir ExecuteTemplate r title).
Proof.
  unfold viewHandler. apply preserves_bind; [apply preserves_loadPage|].
  intros [p|e]; [|auto with frame].
  apply preserves_bind; [apply preserves_displayPage|].
  intros q. apply preserves_renderTemplate.
Qed.

Lemma preserves_viewHandler_plain r title :
  preserves_fs (viewHandler_plain dataDir ExecuteTemplate r title).
Proof.
  unfold viewHandler_plain. apply preserves_bind; [apply preserves_loadPage|].
  intros [p|e]; [apply preserves_renderTemplate|auto with frame].
Qed.

Lemma preserves_editHandler r title :
  preserves_fs (editHandler dataDir ExecuteTemplate r title).
Proof.
  unfold editHandler. apply preserves_bind; [apply preserves_loadPage|].
  intros res. apply preserves_renderTemplate.
Qed.

Lemma preserves_makeHandler (fn : Request -> bytes -> IO unit) r :
  (forall title, preserves_fs (fn r title)) -> preserves_fs (makeHandler fn r).
Proof.
  intros Hfn. unfold makeHandler.
  destruct (FindStringSubmatch validPath (URL_Path r)); [|auto with frame].
  apply preserves_bind; [auto with frame|]. exact Hfn.
Qed.

(** What the router finds in a path, or that it finds nothing. *)
Lemma route_cases path :
  (exists verb title,
      verb ∈ routes /\ is_title title /\ path = "/" :: verb ++ "/" :: title
      /\ FindStringSubmatch validPath path = Some [path; verb; title])
  \/ ((forall title, ~ routed path title)
      /\ FindStringSubmatch validPath path = None).
Proof.
  rewrite FindStringSubmatch_validPath.
  destruct (route_of path) as [[verb title]|] eqn:Hroute.
  - left. exists verb, title. apply route_of_iff in Hroute as (Hv & Ht & Hp).
    repeat split; try assumption; apply Ht.
  - right. split; [|reflexivity]. intros title (verb & Hv & Ht & Hp).
    assert (Hsome : route_of path = Some (verb, title)) by now apply route_of_iff.
    congruence.
Qed.

(** X4. [getTitle] returns the title of a path the router accepts, with
    no error and without writing anything; for every other path it writes
    the answer 404 and returns the empty title with the error
    [invalid Page Title].  It never panics and never touches the store. *)
Theorem getTitle_result r w :
  (exists verb title,
      verb ∈ routes /\ is_title title
      /\ URL_Path r = "/" :: verb ++ "/" :: title
      /\ getTitle r w = Some ((title, None), w))
  \/ ((forall title, ~ routed (URL_Path r) title)
      /\ exists w',
           http_NotFound r w = Some (tt, w')
           /\ fs w' = fs w
           /\ getTitle r w = Some (([], Some (str "invalid Page Title")), w')).
Proof.
  unfold getTitle.
  destruct (route_cases (URL_Path r))
    as [(verb & title & Hv & Ht & Hp & Hm) | [Hnone Hm]]; rewrite Hm.
  - left. exists verb, title. repeat split; try assumption; apply Ht.
  - right. split; [exact Hnone|].
    destruct (http_Error_runs (str "404 page not found") StatusNotFound w)
      as (w' & Hrun & Hfs).
    exists w'. split; [exact Hrun|]. split; [exact Hfs|].
    unfold bind. unfold http_NotFound. now rewrite Hrun.
Qed.

(** X5. [makeHandler] is [getTitle] followed by the handler: a handler
    wrapped by [makeHandler] does what a handler does that calls
    [getTitle] first, returns on its error and goes on with its title
    otherwise. *)
Theorem makeHandler_getTitle (fn : Request -> bytes -> IO unit) r w :
  makeHandler fn r w
  = (res <~ getTitle r ;;
     match snd res with
     | Some _ => ret tt
     | None => fn r (fst res)
     end) w.
Proof.
  unfold makeHandler, getTitle, bind.
  destruct (FindStringSubmatch validPath (URL_Path r)) as [m|].
  - destruct (index m 2) as [title|]; reflexivity.
  - destruct (http_NotFound r w) as [[[] w']|]; reflexivity.
Qed.

(** X6. [renderTemplate] on a response that is still empty.  When the
    template runs without error the answer is what it wrote.  When it
    fails before writing anything the answer is the status 500 with the
    message of the error.  When it fails after it has written something
    the status 200 is already out: the message is appended to the body and
    the status 500 is lost. *)
Theorem renderTemplate_outcomes tmpl p f :
  renderTemplate ExecuteTemplate tmpl p (mkWorld f freshResponse)
  = Some (tt, mkWorld f
       match ExecuteTemplate (tmpl ++ str ".html") p with
       | ([], None) => freshResponse
       | ((_ :: _) as out, None) => mkRW (Some StatusOK) ∅ out
       | ([], Some e) =>
           mkRW (Some StatusInternalServerError)
                (<[str "X-Content-Type-Options" := str "nosniff"]>
                   (<[str "Content-Type" := str "text/plain; charset=utf-8"]> ∅))
                (e ++ [newline])
       | ((_ :: _) as out, Some e) =>
           mkRW (Some StatusOK) ∅ (out ++ e ++ [newline])
       end).
Proof.
  unfold renderTemplate.
  destruct (ExecuteTemplate (tmpl ++ str ".html") p) as [[|c out] [e|]];
    reflexivity.
Qed.

(** X7. Viewing and editing never change the file store and never panic:
    [viewHandler] (with or without links), [editHandler] and
    [indexHandler] always answer, and the store after them is the store
    before them. *)
Theorem handlers_read_only r title w :
  (exists w', viewHandler dataDir ExecuteTemplate r title w = Some (tt, w')
              /\ fs w' = fs w)
  /\ (exists w', viewHandler_plain dataDir ExecuteTemplate r title w = Some (tt, w')
                 /\ fs w' = fs w)
  /\ (exists w', editHandler dataDir ExecuteTemplate r title w = Some (tt, w')
                 /\ fs w' = fs w)
  /\ (exists w', indexHandler r w = Some (tt, w') /\ fs w' = fs w).
Proof.
  assert (Hrun : forall m : IO unit,
             never_panics m -> preserves_fs m ->
             exists w', m w = Some (tt, w') /\ fs w' = fs w).
  { intros m Hm Hp. destruct (Hm w) as ([] & w' & Hw). exists w'.
    split; [exact Hw|]. exact (Hp _ _ _ Hw). }
  repeat split; apply Hrun.
  - unfold viewHandler. apply runs_bind; [apply runs_loadPage|].
    intros [p|e]; [|apply runs_http_Redirect].
    apply runs_bind; [apply runs_displayPage|]. intros q. apply runs_renderTemplate.
  - apply preserves_viewHandler.
  - unfold viewHandler_plain. apply runs_bind; [apply runs_loadPage|].
    intros [p|e]; [apply runs_renderTemplate|apply runs_http_Redirect].
  - apply preserves_viewHandler_plain.
  - unfold editHandler. apply runs_bind; [apply runs_loadPage|].
    intros res. apply runs_renderTemplate.
  - apply preserves_editHandler.
  - apply runs_http_Redirect.
  - apply preserves_http_Redirect.
Qed.

End MoreFacts.

(** ** The state of the program

    What [viewHandler] reads of the variables of the package and of the
    world, and what it leaves as it found it. *)

Lemma spliceP_pure repl f ps s :
  (forall span, repl span s = option_map (fun out => (out, s)) (f span)) ->
  spliceP repl ps s = option_map (fun out => (out, s)) (splice f ps).
Proof.
  intros Hrepl. induction ps as [|[c|span] ps IH]; cbn [spliceP splice].
  - reflexivity.
  - unfold bindP. rewrite IH. destruct (splice f ps); reflexivity.
  - unfold bindP at 1. rewrite Hrepl. destruct (f span) as [out|]; [|reflexivity].
    cbn [option_map]. unfold bindP. rewrite IH. destruct (splice f ps); reflexivity.
Qed.

Lemma spliceP_frame repl ps :
  (forall span s a s', repl span s = Some (a, s') -> s' = s) ->
  forall s a s', spliceP repl ps s = Some (a, s') -> s' = s.
Proof.
  intros Hrepl. induction ps as [|[c|span] ps IH]; intros s a s'; cbn [spliceP].
  - now intros [= _ <-].
  - unfold bindP. destruct (spliceP repl ps s) as [[rest s1]|] eqn:Hrest; [|discriminate].
    intros [= _ <-]. exact (IH _ _ _ Hrest).
  - unfold bindP. destruct (repl span s) as [[out s1]|] eqn:Hout; [|discriminate].
    destruct (spliceP repl ps s1) as [[rest s2]|] eqn:Hrest; [|discriminate].
    intros [= _ <-]. rewrite (IH _ _ _ Hrest). exact (Hrepl _ _ _ _ Hout).
Qed.

Lemma linkReplP_frame span s a s' : linkReplP span s = Some (a, s') -> s' = s.
Proof.
  unfold linkReplP, bindP, readVar.
  destruct (FindStringSubmatch _ span) as [matched|]; [|discriminate].
  destruct (index matched 1); [|discriminate]. now intros [= _ <-].
Qed.

Lemma renderP_frame body s a s' : renderP body s = Some (a, s') -> s' = s.
Proof.
  unfold renderP, bindP, readVar, ReplaceAllFuncP.
  apply spliceP_frame. exact linkReplP_frame.
Qed.

Lemma renderP_pure body s :
  linkPath_var (vars s) = linkPath ->
  renderP body s = option_map (fun display => (display, s)) (render body).
Proof.
  intros Hvar. unfold renderP, bindP, readVar, ReplaceAllFuncP. rewrite Hvar.
  apply spliceP_pure. intros span. unfold linkReplP, bindP, readVar, linkRepl.
  rewrite Hvar. destruct (FindStringSubmatch linkPath span) as [matched|]; [|reflexivity].
  destruct (index matched 1); reflexivity.
Qed.

(** The renderer reads [linkPath]: with another pattern in the variable
    the callback finds no first group, and panics. *)
Lemma renderP_reads_linkPath w :
  renderP (str "[X]") (mkMem (mkVars plainTemplate validPath (Lit "X")) w) = None.
Proof. reflexivity. Qed.

Lemma keeps_bindP {A B} (m : Prog A) (k : A -> Prog B) :
  keeps_vars m -> (forall a, keeps_vars (k a)) -> keeps_vars (bindP m k).
Proof.
  intros Hm Hk s b s'. unfold bindP.
  destruct (m s) as [[a s1]|] eqn:Hrun; [|discriminate].
  intros Hrest. rewrite (Hk a _ _ _ Hrest). exact (Hm _ _ _ Hrun).
Qed.

Lemma keeps_liftIO {A} (m : IO A) : keeps_vars (liftIO m).
Proof.
  intros s a s'. unfold liftIO.
  destruct (m (world s)) as [[a' w]|]; [|discriminate]. now intros [= _ <-].
Qed.

Lemma keeps_readVar {A} (var : Vars -> A) : keeps_vars (readVar var).
Proof. intros s a s'. unfold readVar. now intros [= _ <-]. Qed.

Lemma keeps_panicP {A} : keeps_vars (@panicP A).
Proof. intros s a s'. discriminate. Qed.

Lemma keeps_renderP body : keeps_vars (renderP body).
Proof. intros s a s' H. now rewrite (renderP_frame _ _ _ _ H). Qed.

Lemma keeps_renderTemplateP tmpl p : keeps_vars (renderTemplateP tmpl p).
Proof.
  unfold renderTemplateP. apply keeps_bindP; [apply keeps_readVar|].
  intros t. apply keeps_liftIO.
Qed.

Lemma keeps_viewHandlerP dataDir r title : keeps_vars (viewHandlerP dataDir r title).
Proof.
  unfold viewHandlerP. apply keeps_bindP; [apply keeps_liftIO|].
  intros [p|e]; [|apply keeps_liftIO].
  apply keeps_bindP; [apply keeps_renderP|]. intros display.
  apply keeps_renderTemplateP.
Qed.

Lemma keeps_editHandlerP dataDir r title : keeps_vars (editHandlerP dataDir r title).
Proof.
  unfold editHandlerP. apply keeps_bindP; [apply keeps_liftIO|].
  intros res. apply keeps_renderTemplateP.
Qed.

Lemma keeps_saveHandlerP dataDir r title : keeps_vars (saveHandlerP dataDir r title).
Proof.
  unfold saveHandlerP. apply keeps_bindP; [apply keeps_liftIO|].
  intros [e|]; apply keeps_liftIO.
Qed.

Lemma keeps_makeHandlerP fn r :
  (forall title, keeps_vars (fn r title)) -> keeps_vars (makeHandlerP fn r).
Proof.
  intros Hfn. unfold makeHandlerP. apply keeps_bindP; [apply keeps_readVar|].
  intros re. destruct (FindStringSubmatch re (URL_Path r)) as [m|]; [|apply keeps_liftIO].
  destruct (index m 2); [apply Hfn|apply keeps_panicP].
Qed.

Lemma keeps_handlersP dataDir staticFiles h r :
  h ∈ handlersP dataDir staticFiles -> keeps_vars (h r).
Proof.
  unfold handlersP. rewrite !elem_of_cons, elem_of_nil.
  intros [-> | [-> | [-> | [-> | [-> | []]]]]].
  - apply keeps_liftIO.
  - apply keeps_makeHandlerP. intros title. apply keeps_viewHandlerP.
  - apply keeps_makeHandlerP. intros title. apply keeps_editHandlerP.
  - apply keeps_makeHandlerP. intros title. apply keeps_saveHandlerP.
  - apply keeps_liftIO.
Qed.

Lemma reachable_vars dataDir ExecuteTemplate staticFiles s :
  reachable dataDir ExecuteTemplate staticFiles s ->
  vars s = initVars ExecuteTemplate.
Proof.
  induction 1 as [w|s h r a s' _ IH Hin Hrun|s w _ IH].
  - reflexivity.
  - rewrite (keeps_handlersP _ _ _ _ Hin _ _ _ Hrun). exact IH.
  - exact IH.
Qed.

Lemma viewHandlerP_store dataDir r title s a s' :
  viewHandlerP dataDir r title s = Some (a, s') -> fs (world s') = fs (world s).
Proof.
  destruct s as [v w]. unfold viewHandlerP, bindP, liftIO. cbn [vars world].
  destruct (loadPage dataDir title w) as [[[p|e] w1]|] eqn:Hload; [| |discriminate];
    pose proof (loadPage_frame _ _ _ _ _ Hload) as ->; cbn [vars world].
  - destruct (renderP (Body p) (mkMem v w)) as [[display s1]|] eqn:Hr; [|discriminate].
    rewrite (renderP_frame _ _ _ _ Hr).
    unfold renderTemplateP, bindP, readVar, liftIO. cbn [vars world].
    destruct (renderTemplate (templates v) (str "view") _ w) as [[[] w2]|] eqn:Hrun;
      [|discriminate].
    intros [= <- <-]. cbn [world].
    exact (preserves_renderTemplate _ _ _ _ _ _ Hrun).
  - destruct (http_Redirect r _ StatusFound w) as [[[] w2]|] eqn:Hrun; [|discriminate].
    intros [= <- <-]. cbn [world].
    exact (preserves_http_Redirect _ _ _ _ _ _ Hrun).
Qed.

Section StateFacts.

Variable dataDir : bytes.
Variable ExecuteTemplate : bytes -> Page -> bytes * option error.
Variable staticFiles : handlerFunc.

(** C9. The display body is a function of the raw body alone.  No
    handler of the program assigns a variable of the package, so
    [linkPath] holds the pattern it was given at the start in every state
    the server goes through.  In such a state, rendering a body succeeds,
    gives the display body that the body alone determines, and leaves
    the variables of the package, the stored files and the answer as
    they were; so two renderings of one body, in any two states, give
    one display body.  [viewHandler] gives the template the page with
    that display body, whatever the request, the title and the state
    are, and changes no variable and no file: nothing of a rendering is
    kept for the next one. *)
Theorem C9_display_pure :
  (forall s,
     reachable dataDir ExecuteTemplate staticFiles s ->
     vars s = initVars ExecuteTemplate /\ linkPath_var (vars s) = linkPath)
  /\ (forall body s,
        linkPath_var (vars s) = linkPath ->
        exists display,
          render body = Some display /\ renderP body s = Some (display, s))
  /\ (forall body s1 s2 d1 d2 s1' s2',
        linkPath_var (vars s1) = linkPath ->
        linkPath_var (vars s2) = linkPath ->
        renderP body s1 = Some (d1, s1') ->
        renderP body s2 = Some (d2, s2') ->
        d1 = d2 /\ s1' = s1 /\ s2' = s2)
  /\ (forall body s display s',
        renderP body s = Some (display, s') -> s' = s)
  /\ (forall r1 r2 title1 title2 s1 s2 p1 p2 w1 w2,
        linkPath_var (vars s1) = linkPath ->
        linkPath_var (vars s2) = linkPath ->
        loadPage dataDir title1 (world s1) = Some (Ok p1, w1) ->
        loadPage dataDir title2 (world s2) = Some (Ok p2, w2) ->
        Body p1 = Body p2 ->
        exists display,
          render (Body p1) = Some display
          /\ viewHandlerP dataDir r1 title1 s1
             = renderTemplateP (str "view") (mkPage (Title p1) (Body p1) display) s1
          /\ viewHandlerP dataDir r2 title2 s2
             = renderTemplateP (str "view") (mkPage (Title p2) (Body p2) display) s2)
  /\ (forall r title s a s',
        viewHandlerP dataDir r title s = Some (a, s') ->
        vars s' = vars s /\ fs (world s') = fs (world s))
  /\ (forall r title w,
        viewHandlerP dataDir r title (mkMem (initVars ExecuteTemplate) w)
        = option_map (fun res => (fst res, mkMem (initVars ExecuteTemplate) (snd res)))
            (viewHandler dataDir ExecuteTemplate r title w)).
Proof.
  assert (Hview : forall r title s p w1,
             linkPath_var (vars s) = linkPath ->
             loadPage dataDir title (world s) = Some (Ok p, w1) ->
             forall display, render (Body p) = Some display ->
             viewHandlerP dataDir r title s
             = renderTemplateP (str "view") (mkPage (Title p) (Body p) display) s).
  { intros r title s p w1 Hvar Hload display Hr.
    pose proof (loadPage_frame _ _ _ _ _ Hload) as ->.
    unfold viewHandlerP, bindP at 1. unfold liftIO at 1. rewrite Hload.
    destruct s as [v w]. cbn [vars world] in *.
    unfold bindP. rewrite (renderP_pure _ (mkMem v w) Hvar), Hr. reflexivity. }
  split; [|split; [|split; [|split; [|split; [|split]]]]].
  - intros s Hreach. rewrite (reachable_vars _ _ _ _ Hreach). split; reflexivity.
  - intros body s Hvar. destruct (render_total body) as [display Hr].
    exists display. split; [exact Hr|]. now rewrite (renderP_pure _ _ Hvar), Hr.
  - intros body s1 s2 d1 d2 s1' s2' Hv1 Hv2 H1 H2.
    rewrite (renderP_pure _ _ Hv1) in H1. rewrite (renderP_pure _ _ Hv2) in H2.
    destruct (render body) as [display|]; [|discriminate].
    injection H1 as <- <-. injection H2 as <- <-. repeat split.
  - exact renderP_frame.
  - intros r1 r2 title1 title2 s1 s2 p1 p2 w1 w2 Hv1 Hv2 Hl1 Hl2 Hbody.
    destruct (render_total (Body p1)) as [display Hr]. exists display.
    split; [exact Hr|]. split.
    + exact (Hview r1 title1 s1 p1 w1 Hv1 Hl1 display Hr).
    + rewrite Hbody in Hr. exact (Hview r2 title2 s2 p2 w2 Hv2 Hl2 display Hr).
  - intros r title s a s' Hrun. split.
    + exact (keeps_viewHandlerP _ _ _ _ _ _ Hrun).
    + exact (viewHandlerP_store _ _ _ _ _ _ Hrun).
  - intros r title w. unfold viewHandlerP, bindP, liftIO, viewHandler, bind.
    cbn [vars world].
    destruct (loadPage dataDir title w) as [[[p|e] w1]|]; [| |reflexivity];
      cbn [vars world].
    + rewrite renderP_pure by reflexivity.
      unfold displayPage, bind.
      destruct (render (Body p)) as [display|]; [|reflexivity].
      cbn [option_map lift_option ret].
      unfold renderTemplateP, bindP, readVar, liftIO. cbn [vars world initVars templates].
      destruct (renderTemplate ExecuteTemplate (str "view") _ w1) as [[[] w2]|];
        reflexivity.
    + destruct (http_Redirect r _ StatusFound w1) as [[[] w2]|]; reflexivity.
Qed.

End StateFacts.

(** ** The routes of [main], path by path *)

Lemma snoc_slash_ne (roots : list bytes) path t :
  path ∉ roots -> t ∈ roots -> t ++ str "/" <> path ++ str "/".
Proof. intros Hp Ht Heq. apply app_inj_tail in Heq as [<- _]. contradiction. Qed.

Lemma has_prefix_self p : has_prefix p p = true.
Proof. apply has_prefix_true. exists []. now rewrite app_nil_r. Qed.

Lemma makeHandler_unrouted (fn : Request -> bytes -> IO unit) r w :
  (forall title, ~ routed (URL_Path r) title) ->
  makeHandler fn r w = http_NotFound r w.
Proof.
  intros Hnone. unfold makeHandler.
  destruct (route_cases (URL_Path r))
    as [(verb & title & Hv & Ht & Hp & Hm) | [_ Hm]]; rewrite Hm; [|reflexivity].
  destruct (Hnone title). now exists verb.
Qed.

Section RoutingFacts.

Variable dataDir : bytes.
Variable ExecuteTemplate : bytes -> Page -> bytes * option error.
Variable staticFiles : handlerFunc.
Variable canonicalStatus : nat.

(** The handler the multiplexer of [main] picks for a path. *)
Lemma mux_handler_main mux path :
  mainMux dataDir ExecuteTemplate staticFiles = Some mux ->
  mux_handler mux path =
  if has_prefix path (str "/static/") then staticFiles
  else if has_prefix path (str "/view/")
  then makeHandler (viewHandler dataDir ExecuteTemplate)
  else if has_prefix path (str "/edit/")
  then makeHandler (editHandler dataDir ExecuteTemplate)
  else if has_prefix path (str "/save/")
  then makeHandler (saveHandler dataDir)
  else if has_prefix path (str "/") then indexHandler
  else NotFoundHandler.
Proof.
  rewrite mainMux_eq. intros [= <-].
  unfold mux_handler, mux_match. cbn [mux_m mux_es match_es].
  rewrite !lookup_insert. repeat case_decide; subst; try reflexivity.
  rewrite lookup_empty. unfold str. cbn [list_ascii_of_string].
  repeat match goal with
         | |- context [has_prefix path ?k] => destruct (has_prefix path k)
         end; reflexivity.
Qed.

(** The multiplexer adds a slash only to the root of a subtree. *)
Lemma shouldRedirect_main mux path rest :
  mainMux dataDir ExecuteTemplate staticFiles = Some mux ->
  path = "/" :: rest -> path ∉ subtree_roots ->
  shouldRedirect mux path = false.
Proof.
  rewrite mainMux_eq. intros [= <-] Hrooted Hroot.
  unfold shouldRedirect. cbn [mux_m].
  destruct (_ !! path); [reflexivity|].
  rewrite Hrooted at 1. cbv iota.
  rewrite lookup_insert_ne by (apply (snoc_slash_ne subtree_roots path (str "/static")); [exact Hroot|in_list]).
  rewrite lookup_insert_ne by (apply (snoc_slash_ne subtree_roots path (str "/save")); [exact Hroot|in_list]).
  rewrite lookup_insert_ne by (apply (snoc_slash_ne subtree_roots path (str "/edit")); [exact Hroot|in_list]).
  rewrite lookup_insert_ne by (apply (snoc_slash_ne subtree_roots path (str "/view")); [exact Hroot|in_list]).
  rewrite lookup_insert_ne; [now rewrite lookup_empty|].
  rewrite Hrooted. intros [= Heq]. now destruct rest.
Qed.

Lemma shouldRedirect_root mux path :
  mainMux dataDir ExecuteTemplate staticFiles = Some mux ->
  path ∈ subtree_roots -> shouldRedirect mux path = true.
Proof.
  rewrite mainMux_eq. intros [= <-] Hroot. unfold subtree_roots in Hroot.
  rewrite !elem_of_cons, elem_of_nil in Hroot.
  destruct Hroot as [-> | [-> | [-> | [-> | []]]]]; reflexivity.
Qed.

(** A request with a canonical path that is not the root of a subtree goes
    to the handler of its path, whatever its method is. *)
Lemma serve_dispatch r w mux :
  mainMux dataDir ExecuteTemplate staticFiles = Some mux ->
  cleanPath (URL_Path r) = URL_Path r ->
  URL_Path r ∉ subtree_roots ->
  serve dataDir ExecuteTemplate staticFiles canonicalStatus r w = mux_handler mux (URL_Path r) r w.
Proof.
  intros Hmux Hclean Hroot.
  destruct (cleanPath_rooted (URL_Path r)) as [rest Hrest].
  rewrite Hclean in Hrest.
  unfold serve, bind. rewrite Hmux. cbn [lift_option ret].
  unfold ServeHTTP, mux_Handler.
  rewrite Hclean, bytes_eqb_refl, (shouldRedirect_main _ _ _ Hmux Hrest Hroot).
  now destruct (bytes_eqb (Method r) (str "CONNECT")).
Qed.

Lemma mainMux_some : exists mux, mainMux dataDir ExecuteTemplate staticFiles = Some mux.
Proof. eexists. apply mainMux_eq. Qed.

(** X8. A request under [/static/] with a canonical path is answered by
    the file server, whatever its method is. *)
Theorem serve_static r w :
  has_prefix (URL_Path r) (str "/static/") = true ->
  cleanPath (URL_Path r) = URL_Path r ->
  serve dataDir ExecuteTemplate staticFiles canonicalStatus r w = staticFiles r w.
Proof.
  intros Hpre Hclean. destruct mainMux_some as [mux Hmux].
  rewrite (serve_dispatch r w mux Hmux Hclean).
  - rewrite (mux_handler_main _ _ Hmux). now rewrite Hpre.
  - apply has_prefix_true in Hpre as [rest ->]. unfold subtree_roots.
    rewrite !elem_of_cons, elem_of_nil.
    intros [H | [H | [H | [H | []]]]]; discriminate.
Qed.

(** X9. A request with a canonical path under [/view/], [/edit/] or
    [/save/] that is not a path of the router (no title, or a title with a
    character other than a letter or a digit, or with a slash) is answered
    by the status 404, and no handler of a page runs. *)
Theorem serve_unrouted r w t :
  t ∈ subtrees_plain ->
  has_prefix (URL_Path r) t = true ->
  cleanPath (URL_Path r) = URL_Path r ->
  (forall title, ~ routed (URL_Path r) title) ->
  serve dataDir ExecuteTemplate staticFiles canonicalStatus r w = http_NotFound r w.
Proof.
  intros Ht Hpre Hclean Hnone. destruct mainMux_some as [mux Hmux].
  assert (Hroot : URL_Path r ∉ subtree_roots).
  { apply has_prefix_true in Hpre as [rest Hp]. rewrite Hp.
    unfold subtrees_plain in Ht. rewrite !elem_of_cons, elem_of_nil in Ht.
    unfold subtree_roots. rewrite !elem_of_cons, elem_of_nil.
    destruct Ht as [-> | [-> | [-> | []]]];
      intros [H | [H | [H | [H | []]]]]; discriminate. }
  rewrite (serve_dispatch r w mux Hmux Hclean Hroot).
  rewrite (mux_handler_main _ _ Hmux).
  assert (Hstatic : has_prefix (URL_Path r) (str "/static/") = false).
  { apply has_prefix_false. intros rest' Hp'.
    apply has_prefix_true in Hpre as [rest Hp]. rewrite Hp in Hp'.
    unfold subtrees_plain in Ht. rewrite !elem_of_cons, elem_of_nil in Ht.
    destruct Ht as [-> | [-> | [-> | []]]]; discriminate. }
  rewrite Hstatic.
  repeat match goal with
         | |- context [has_prefix (URL_Path r) ?k] =>
             destruct (has_prefix (URL_Path r) k) eqn:?
         end; try (now apply makeHandler_unrouted).
  - exfalso. unfold subtrees_plain in Ht. rewrite !elem_of_cons, elem_of_nil in Ht.
    destruct Ht as [-> | [-> | [-> | []]]]; congruence.
  - exfalso. unfold subtrees_plain in Ht. rewrite !elem_of_cons, elem_of_nil in Ht.
    destruct Ht as [-> | [-> | [-> | []]]]; congruence.
Qed.

End RoutingFacts.

(** ** What a request can write *)

Section StoreFacts.

Variable dataDir : bytes.
Variable ExecuteTemplate : bytes -> Page -> bytes * option error.
Variable staticFiles : handlerFunc.
Variable canonicalStatus : nat.

(** What [saveHandler] does to the store, whether the write succeeds or
    not. *)
Lemma saveHandler_store r title w w' :
  saveHandler dataDir r title w = Some (tt, w') ->
  journal (fs w')
  = (dataDir ++ title ++ str ".txt", FormValue r (str "body")) :: journal (fs w)
  /\ denied (fs w') = denied (fs w)
  /\ unreadable (fs w') = unreadable (fs w)
  /\ faulty (fs w') = faulty (fs w)
  /\ (forall name, name <> dataDir ++ title ++ str ".txt" ->
                   files (fs w') !! name = files (fs w) !! name).
Proof.
  unfold saveHandler, bind, save, WriteFile. cbn [Title Body].
  destruct (denied (fs w) !! _) as [e|];
    [|destruct (faulty (fs w) !! _) as [[n e]|]]; intros Hrun.
  - apply preserves_http_Error in Hrun. rewrite Hrun. cbn. repeat split.
  - apply preserves_http_Error in Hrun. rewrite Hrun. cbn. repeat split.
    intros name Hne. now apply lookup_insert_ne.
  - apply preserves_http_Redirect in Hrun. rewrite Hrun. cbn. repeat split.
    intros name Hne. now apply lookup_insert_ne.
Qed.

Lemma handler_store r mux w w' :
  mainMux dataDir ExecuteTemplate staticFiles = Some mux ->
  (forall r0, preserves_fs (staticFiles r0)) ->
  mux_handler mux (URL_Path r) r w = Some (tt, w') ->
  fs w' = fs w
  \/ exists title,
       is_title title /\ URL_Path r = str "/save/" ++ title
       /\ saveHandler dataDir r title w = Some (tt, w').
Proof.
  intros Hmux Hstatic. rewrite (mux_handler_main _ _ _ _ _ Hmux).
  destruct (has_prefix (URL_Path r) (str "/static/"));
    [intros Hrun; left; exact (Hstatic _ _ _ _ Hrun)|].
  destruct (has_prefix (URL_Path r) (str "/view/")).
  { intros Hrun. left. revert Hrun. apply preserves_makeHandler.
    intros title. apply preserves_viewHandler. }
  destruct (has_prefix (URL_Path r) (str "/edit/")).
  { intros Hrun. left. revert Hrun. apply preserves_makeHandler.
    intros title. apply preserves_editHandler. }
  destruct (has_prefix (URL_Path r) (str "/save/")) eqn:Hsave.
  - destruct (route_cases (URL_Path r))
      as [(verb & title & Hv & Ht & Hp & Hm) | [Hnone _]].
    + intros Hrun. right. exists title. split; [exact Ht|].
      rewrite (makeHandler_routed _ r w verb title Hv Ht Hp) in Hrun.
      split; [|exact Hrun].
      apply has_prefix_true in Hsave as [rest Hrest]. rewrite Hp in Hrest.
      apply routes_cases in Hv. rewrite Hp.
      destruct Hv as [-> | [-> | ->]]; try discriminate. reflexivity.
    + rewrite (makeHandler_unrouted _ _ _ Hnone). intros Hrun. left.
      exact (preserves_http_NotFound r _ _ _ Hrun).
  - destruct (has_prefix (URL_Path r) (str "/")); intros Hrun; left.
    + exact (preserves_http_Redirect _ _ _ _ _ _ Hrun).
    + exact (preserves_http_NotFound r _ _ _ Hrun).
Qed.

(** X11. No request writes outside the pages: when the file server leaves
    the store alone, a request served by [main] either leaves the store as
    it was, or its path is [/save/title] for a non-empty title of letters
    and digits and it attempts one write, of the submitted body to the
    file [title.txt] of the page directory, and changes no other file. *)
Theorem serve_writes_only_pages r w w' :
  (forall r0, preserves_fs (staticFiles r0)) ->
  serve dataDir ExecuteTemplate staticFiles canonicalStatus r w = Some (tt, w') ->
  fs w' = fs w
  \/ exists title,
       is_title title /\ URL_Path r = str "/save/" ++ title
       /\ journal (fs w')
          = (dataDir ++ title ++ str ".txt", FormValue r (str "body"))
              :: journal (fs w)
       /\ denied (fs w') = denied (fs w)
       /\ unreadable (fs w') = unreadable (fs w)
       /\ faulty (fs w') = faulty (fs w)
       /\ (forall name, name <> dataDir ++ title ++ str ".txt" ->
                        files (fs w') !! name = files (fs w) !! name).
Proof.
  intros Hstatic. destruct (mainMux_some dataDir ExecuteTemplate staticFiles)
    as [mux Hmux].
  unfold serve, bind. rewrite Hmux. cbn [lift_option ret].
  unfold ServeHTTP, mux_Handler. intros Hrun.
  assert (Hhandler : mux_handler mux (URL_Path r) r w = Some (tt, w') ->
            fs w' = fs w
            \/ exists title,
                 is_title title /\ URL_Path r = str "/save/" ++ title
                 /\ journal (fs w')
                    = (dataDir ++ title ++ str ".txt", FormValue r (str "body"))
                        :: journal (fs w)
                 /\ denied (fs w') = denied (fs w)
                 /\ unreadable (fs w') = unreadable (fs w)
                 /\ faulty (fs w') = faulty (fs w)
                 /\ (forall name, name <> dataDir ++ title ++ str ".txt" ->
                                  files (fs w') !! name = files (fs w) !! name)).
  { intros H. destruct (handler_store _ _ _ _ Hmux Hstatic H)
      as [Hfs | (title & Ht & Hp & Hsave)]; [now left|].
    right. exists title. split; [exact Ht|]. split; [exact Hp|].
    now apply saveHandler_store. }
  destruct (bytes_eqb (Method r) (str "CONNECT")).
  - destruct (shouldRedirect mux (URL_Path r)); [|now apply Hhandler].
    left. exact (preserves_http_Redirect _ _ _ _ _ _ Hrun).
  - destruct (shouldRedirect mux (cleanPath (URL_Path r))).
    { left. exact (preserves_http_Redirect _ _ _ _ _ _ Hrun). }
    destruct (negb _); [|now apply Hhandler].
    left. exact (preserves_http_Redirect _ _ _ _ _ _ Hrun).
Qed.

(** X12. What is saved is what is shown.  After a save that succeeds, of
    a file that can be read, a view of the same title renders the view
    layout for the page with the submitted body and the display body
    computed from it, and an edit of the same title renders the edit
    layout for the page with that body. *)
Theorem save_then_view r r1 r2 title f :
  denied f !! (dataDir ++ title ++ str ".txt") = None ->
  faulty f !! (dataDir ++ title ++ str ".txt") = None ->
  unreadable f !! (dataDir ++ title ++ str ".txt") = None ->
  exists w1 display,
    saveHandler dataDir r title (mkWorld f freshResponse) = Some (tt, w1)
    /\ render (FormValue r (str "body")) = Some display
    /\ viewHandler dataDir ExecuteTemplate r1 title (mkWorld (fs w1) freshResponse)
       = renderTemplate ExecuteTemplate (str "view")
           (mkPage title (FormValue r (str "body")) display)
           (mkWorld (fs w1) freshResponse)
    /\ editHandler dataDir ExecuteTemplate r2 title (mkWorld (fs w1) freshResponse)
       = renderTemplate ExecuteTemplate (str "edit")
           (mkPage title (FormValue r (str "body")) [])
           (mkWorld (fs w1) freshResponse).
Proof.
  intros Hden Hfault Hread.
  set (name := dataDir ++ title ++ str ".txt") in *.
  set (content := FormValue r (str "body")).
  destruct (render_total content) as [display Hr].
  destruct (http_Redirect_fresh r (str "/view/" ++ title) StatusFound
              (written f name content (Some content)))
    as (rw & Hredirect & _ & _).
  eexists _, display. split.
  { unfold saveHandler, bind, save, WriteFile. cbn [Title Body fs resp].
    fold content. fold name. rewrite Hden, Hfault. exact Hredirect. }
  split; [exact Hr|].
  assert (Hload : forall rw', loadPage dataDir title
            (mkWorld (written f name content (Some content)) rw')
          = Some (Ok (mkPage title content []),
                  mkWorld (written f name content (Some content)) rw')).
  { intros rw'. rewrite loadPage_eq. cbn [fs written files unreadable].
    fold name. now rewrite Hread, lookup_insert_eq. }
  cbn [fs]. split.
  - unfold viewHandler, bind at 1. rewrite Hload.
    unfold bind, displayPage, bind. cbn [Body Title]. now rewrite Hr.
  - unfold editHandler, bind. now rewrite Hload.
Qed.

(** X13. A request to save without the field [body] empties the page:
    when the write succeeds the file is written with no content, and the
    page loaded next, when the file can be read, has an empty body. *)
Theorem save_without_body r title f :
  Form r !! str "body" = None ->
  denied f !! (dataDir ++ title ++ str ".txt") = None ->
  faulty f !! (dataDir ++ title ++ str ".txt") = None ->
  unreadable f !! (dataDir ++ title ++ str ".txt") = None ->
  exists w1,
    saveHandler dataDir r title (mkWorld f freshResponse) = Some (tt, w1)
    /\ files (fs w1) !! (dataDir ++ title ++ str ".txt") = Some []
    /\ loadPage dataDir title (mkWorld (fs w1) freshResponse)
       = Some (Ok (mkPage title [] []), mkWorld (fs w1) freshResponse).
Proof.
  intros Hform Hden Hfault Hread.
  assert (Hbody : FormValue r (str "body") = []) by (unfold FormValue; now rewrite Hform).
  destruct (http_Redirect_fresh r (str "/view/" ++ title) StatusFound
              (written f (dataDir ++ title ++ str ".txt") [] (Some [])))
    as (rw & Hredirect & _ & _).
  eexists. split.
  { unfold saveHandler, bind, save, WriteFile. cbn [Title Body fs resp].
    rewrite Hden, Hfault, Hbody. exact Hredirect. }
  cbn [fs written files]. split; [apply lookup_insert_eq|].
  rewrite loadPage_eq. cbn [fs written files unreadable].
  now rewrite Hread, lookup_insert_eq.
Qed.

End StoreFacts.

(** ** More on the renderer *)

Lemma flat_map_render_bytes a :
  flat_map token_render (map TByte a) = HTMLEscapeString a.
Proof. induction a as [|c a IH]; [reflexivity|]. simpl. now rewrite IH. Qed.

(** X14. Rendering goes piece by piece: a text without [[] in front of
    another text is rendered as its escaped form followed by the rendering
    of the other text, and a marker in front of a text as its anchor
    followed by the rendering of the text. *)
Theorem render_composition :
  (forall a b,
     "[" ∉ a ->
     render (a ++ b) = option_map (app (HTMLEscapeString a)) (render b))
  /\ (forall title rest,
        is_title title ->
        render (marker title ++ rest) = option_map (app (anchor title)) (render rest)).
Proof.
  split.
  - intros a b Ha. destruct (tokens_total b) as [toks Hb].
    assert (Hab : tokens (a ++ b) (map TByte a ++ toks)).
    { apply tokens_plain_bytes; [|exact Hb].
      apply Forall_forall. intros c Hc ->. now apply Ha. }
    rewrite (render_tokens _ _ Hab), (render_tokens _ _ Hb).
    cbn [option_map]. now rewrite flat_map_app, flat_map_render_bytes.
  - intros title rest Ht. destruct (tokens_total rest) as [toks Hrest].
    rewrite (render_tokens _ _ (tokens_marker _ _ _ Ht Hrest)).
    now rewrite (render_tokens _ _ Hrest).
Qed.

Lemma holds_marker_nil : ~ holds_marker [].
Proof.
  intros (pre & title & rest & _ & H). unfold marker in H.
  destruct pre; discriminate.
Qed.

Lemma holds_marker_cons x s :
  marker_at (x :: s) = None -> (holds_marker (x :: s) <-> holds_marker s).
Proof.
  intros Hnone. split.
  - intros (pre & title & rest & Ht & H). destruct pre as [|y pre].
    + assert (Hm : marker_at (x :: s) = Some (title, rest))
        by (apply marker_at_iff; split; [exact Ht|exact H]).
      congruence.
    + injection H as _ H. now exists pre, title, rest.
  - intros (pre & title & rest & Ht & ->). now exists (x :: pre), title, rest.
Qed.

Lemma find_linkPath_none pos s :
  find_from linkPath pos s = None <-> ~ holds_marker s.
Proof.
  revert pos. induction s as [|x s IH]; intros pos; cbn [find_from];
    rewrite exec_linkPath.
  - cbn. split; [intros _; apply holds_marker_nil|reflexivity].
  - destruct (marker_at (x :: s)) as [[title rest]|] eqn:Hm.
    + split; [discriminate|]. intros Hno. exfalso. apply Hno.
      apply marker_at_iff in Hm as [Ht Hs]. now exists [], title, rest.
    + rewrite IH. now rewrite (holds_marker_cons _ _ Hm).
Qed.

Lemma find_linkPath_some pos s m :
  find_from linkPath pos s = Some m -> exists whole title, m = [whole; title].
Proof.
  revert pos. induction s as [|x s IH]; intros pos; cbn [find_from].
  - destruct (exec linkPath pos []); [|discriminate].
    intros [= <-]. eexists _, _. reflexivity.
  - destruct (exec linkPath pos (x :: s)); [|apply IH].
    intros [= <-]. eexists _, _. reflexivity.
Qed.

(** X15. The callback of the renderer panics exactly on a text that holds
    no marker, where the match is nil and [matched[1]] is out of range; on
    a text that holds one it returns an anchor. *)
Theorem linkRepl_panics_iff span :
  (linkRepl span = None <-> ~ holds_marker span)
  /\ (holds_marker span -> exists title, linkRepl span = Some (anchor title)).
Proof.
  assert (Hsome : forall m, FindStringSubmatch linkPath span = Some m ->
                            exists title, linkRepl span = Some (anchor title)).
  { intros m Hm. destruct (find_linkPath_some _ _ _ Hm) as (whole & title & ->).
    exists title. unfold linkRepl. now rewrite Hm. }
  split; [split|].
  - intros Hnone. apply (find_linkPath_none 0).
    destruct (find_from linkPath 0 span) as [m|] eqn:Hm; [|reflexivity].
    destruct (Hsome m Hm) as [title Ht]. congruence.
  - intros Hno. apply (find_linkPath_none 0) in Hno.
    unfold linkRepl, FindStringSubmatch. now rewrite Hno.
  - intros Hholds.
    destruct (FindStringSubmatch linkPath span) as [m|] eqn:Hm; [now apply (Hsome m)|].
    apply (find_linkPath_none 0) in Hm. contradiction.
Qed.

(** ** The variant without links *)

Section PlainFacts.

Variable dataDir : bytes.
Variable ExecuteTemplate : bytes -> Page -> bytes * option error.
Variable staticFiles : handlerFunc.
Variable canonicalStatus : nat.

Lemma mainMux_plain_eq :
  mainMux_plain dataDir ExecuteTemplate =
  Some (mkMux
          (<[str "/save/" := makeHandler (saveHandler dataDir)]>
             (<[str "/edit/" := makeHandler (editHandler dataDir ExecuteTemplate)]>
                (<[str "/view/" := makeHandler (viewHandler_plain dataDir ExecuteTemplate)]>
                   ∅)))
          [(str "/view/", makeHandler (viewHandler_plain dataDir ExecuteTemplate));
           (str "/edit/", makeHandler (editHandler dataDir ExecuteTemplate));
           (str "/save/", makeHandler (saveHandler dataDir))]).
Proof. reflexivity. Qed.

Lemma mux_handler_plain mux path :
  mainMux_plain dataDir ExecuteTemplate = Some mux ->
  mux_handler mux path =
  if has_prefix path (str "/view/")
  then makeHandler (viewHandler_plain dataDir ExecuteTemplate)
  else if has_prefix path (str "/edit/")
  then makeHandler (editHandler dataDir ExecuteTemplate)
  else if has_prefix path (str "/save/")
  then makeHandler (saveHandler dataDir)
  else NotFoundHandler.
Proof.
  rewrite mainMux_plain_eq. intros [= <-].
  unfold mux_handler, mux_match. cbn [mux_m mux_es match_es].
  rewrite !lookup_insert. repeat case_decide; subst; try reflexivity.
  rewrite lookup_empty. unfold str. cbn [list_ascii_of_string].
  repeat match goal with
         | |- context [has_prefix path ?k] => destruct (has_prefix path k)
         end; reflexivity.
Qed.

Lemma shouldRedirect_plain mux path :
  mainMux_plain dataDir ExecuteTemplate = Some mux ->
  path ∉ subtree_roots_plain ->
  shouldRedirect mux path = false.
Proof.
  rewrite mainMux_plain_eq. intros [= <-] Hroot.
  unfold shouldRedirect. cbn [mux_m].
  destruct (_ !! path); [reflexivity|]. destruct path as [|c path]; [reflexivity|].
  rewrite lookup_insert_ne
    by (apply (snoc_slash_ne subtree_roots_plain _ (str "/save")); [exact Hroot|];
        unfold subtree_roots_plain; rewrite !elem_of_cons; tauto).
  rewrite lookup_insert_ne
    by (apply (snoc_slash_ne subtree_roots_plain _ (str "/edit")); [exact Hroot|];
        unfold subtree_roots_plain; rewrite !elem_of_cons; tauto).
  rewrite lookup_insert_ne
    by (apply (snoc_slash_ne subtree_roots_plain _ (str "/view")); [exact Hroot|];
        unfold subtree_roots_plain; rewrite !elem_of_cons; tauto).
  now rewrite lookup_empty.
Qed.

Lemma serve_plain_dispatch r w mux :
  mainMux_plain dataDir ExecuteTemplate = Some mux ->
  cleanPath (URL_Path r) = URL_Path r ->
  URL_Path r ∉ subtree_roots_plain ->
  serve_plain dataDir ExecuteTemplate canonicalStatus r w = mux_handler mux (URL_Path r) r w.
Proof.
  intros Hmux Hclean Hroot.
  unfold serve_plain, bind. rewrite Hmux. cbn [lift_option ret].
  unfold ServeHTTP, mux_Handler.
  rewrite Hclean, bytes_eqb_refl, (shouldRedirect_plain _ _ Hmux Hroot).
  now destruct (bytes_eqb (Method r) (str "CONNECT")).
Qed.

(** X16. The variant without links has no home page: a request with a
    canonical path that is neither the root of nor under [/view/],
    [/edit/] or [/save/], the path [/] among them, is answered by the
    status 404. *)
Theorem serve_plain_not_found r w :
  cleanPath (URL_Path r) = URL_Path r ->
  URL_Path r ∉ subtree_roots_plain ->
  (forall t, t ∈ subtrees_plain -> has_prefix (URL_Path r) t = false) ->
  serve_plain dataDir ExecuteTemplate canonicalStatus r w = http_NotFound r w.
Proof.
  intros Hclean Hroot Hunder.
  rewrite (serve_plain_dispatch r w _ mainMux_plain_eq Hclean Hroot).
  rewrite (mux_handler_plain _ _ mainMux_plain_eq).
  rewrite (Hunder (str "/view/")), (Hunder (str "/edit/")), (Hunder (str "/save/"))
    by (unfold subtrees_plain; rewrite !elem_of_cons; tauto).
  reflexivity.
Qed.

(** X17. In the variant without links too, a request whose path the
    router accepts reaches the handler of its verb with the title of the
    path. *)
Theorem serve_plain_routed r w verb title :
  verb ∈ routes -> is_title title ->
  URL_Path r = "/" :: verb ++ "/" :: title ->
  serve_plain dataDir ExecuteTemplate canonicalStatus r w
  = routeHandler_plain dataDir ExecuteTemplate verb r title w.
Proof.
  intros Hv Ht Hp.
  pose proof (cleanPath_routed _ _ Hv Ht) as Hclean. rewrite <- Hp in Hclean.
  assert (Hroot : URL_Path r ∉ subtree_roots_plain).
  { rewrite Hp. unfold subtree_roots_plain. rewrite !elem_of_cons, elem_of_nil.
    apply routes_cases in Hv. destruct Ht as [Hne _].
    destruct Hv as [-> | [-> | ->]];
      intros [H | [H | [H | []]]]; discriminate. }
  rewrite (serve_plain_dispatch r w _ mainMux_plain_eq Hclean Hroot).
  rewrite (mux_handler_plain _ _ mainMux_plain_eq).
  rewrite <- (makeHandler_routed (routeHandler_plain dataDir ExecuteTemplate verb)
                r w verb title Hv Ht Hp).
  rewrite Hp. apply routes_cases in Hv.
  destruct Hv as [-> | [-> | ->]].
  - rewrite (has_prefix_false _ (str "/view/")) by (intros rest; discriminate).
    change ("/" :: str "edit" ++ "/" :: title) with (str "/edit/" ++ title).
    now rewrite has_prefix_app.
  - rewrite (has_prefix_false _ (str "/view/")) by (intros rest; discriminate).
    rewrite (has_prefix_false _ (str "/edit/")) by (intros rest; discriminate).
    change ("/" :: str "save" ++ "/" :: title) with (str "/save/" ++ title).
    now rewrite has_prefix_app.
  - change ("/" :: str "view" ++ "/" :: title) with (str "/view/" ++ title).
    now rewrite has_prefix_app.
Qed.

(** X19. Following a link of the renderer.  For a marker of the body of a
    page, the display body holds its anchor, the router accepts the target
    of the anchor, and a request for it is served by [viewHandler] with
    the title of the marker. *)
Theorem links_are_routes body toks title :
  tokens body toks -> TMarker title ∈ toks ->
  (exists pre post, render body = Some (pre ++ anchor title ++ post))
  /\ FindStringSubmatch validPath (str "/view/" ++ title)
     = Some [str "/view/" ++ title; str "view"; title]
  /\ (forall r w,
        URL_Path r = str "/view/" ++ title ->
        serve dataDir ExecuteTemplate staticFiles canonicalStatus r w
        = viewHandler dataDir ExecuteTemplate r title w).
Proof.
  intros Htoks Hin.
  assert (Ht : is_title title).
  { pose proof (tokens_titles _ _ Htoks) as Hall. rewrite Forall_forall in Hall.
    exact (Hall _ Hin). }
  assert (Hv : str "view" ∈ routes) by (apply routes_cases; tauto).
  split; [|split].
  - apply list_elem_of_split in Hin as (l1 & l2 & ->).
    rewrite (render_tokens _ _ Htoks), flat_map_app. cbn [flat_map token_render].
    eexists _, _. reflexivity.
  - rewrite FindStringSubmatch_validPath.
    assert (Hroute : route_of (str "/view/" ++ title) = Some (str "view", title))
      by (apply route_of_iff; repeat split; try apply Ht; exact Hv).
    now rewrite Hroute.
  - intros r w Hp.
    assert (Hclean : cleanPath (URL_Path r) = URL_Path r)
      by (rewrite Hp; exact (cleanPath_routed _ _ Hv Ht)).
    assert (Hroot : URL_Path r ∉ subtree_roots).
    { rewrite Hp. unfold subtree_roots. rewrite !elem_of_cons, elem_of_nil.
      destruct Ht as [Hne _].
      intros [H | [H | [H | [H | []]]]]; discriminate. }
    rewrite (serve_dispatch _ _ _ _ r w _ (mainMux_eq _ _ _) Hclean Hroot).
    rewrite (mux_handler_main _ _ _ _ _ (mainMux_eq _ _ _)).
    assert (Hstatic : has_prefix (URL_Path r) (str "/static/") = false)
      by (rewrite Hp; apply has_prefix_false; intros rest; discriminate).
    assert (Hview : has_prefix (URL_Path r) (str "/view/") = true)
      by (rewrite Hp; apply has_prefix_app).
    rewrite Hstatic, Hview.
    apply (makeHandler_routed _ r w (str "view") title Hv Ht). exact Hp.
Qed.

End PlainFacts.

(** ** The first variant *)

(** X20. [main] of the first variant drops the error of [save] and prints
    what it reads back.  When the file cannot be read, [loadPage] returns
    no page and [main] panics, whatever the save did.  When it can be
    read: after a save that succeeds the sample text is printed, whatever
    the file held before; after a write that stopped on the way, what
    reached the file; and when the file could not be opened for writing,
    what the file held before, or a panic when there was no file. *)
Theorem save_load_main f rw :
  let name := str "TestPage.txt" in
  let sample := str "This is a sample page." in
  (forall e, unreadable f !! name = Some e ->
             SaveLoad.main (mkWorld f rw) = None)
  /\ (unreadable f !! name = None ->
      (denied f !! name = None -> faulty f !! name = None ->
       SaveLoad.main (mkWorld f rw)
       = Some (sample ++ [newline],
               mkWorld (written f name sample (Some sample)) rw))
      /\ (forall n e,
            denied f !! name = None -> faulty f !! name = Some (n, e) ->
            SaveLoad.main (mkWorld f rw)
            = Some (take n sample ++ [newline],
                    mkWorld (written f name sample (Some (take n sample))) rw))
      /\ (forall e old,
            denied f !! name = Some e -> files f !! name = Some old ->
            SaveLoad.main (mkWorld f rw)
            = Some (old ++ [newline], mkWorld (written f name sample None) rw))
      /\ (forall e,
            denied f !! name = Some e -> files f !! name = None ->
            SaveLoad.main (mkWorld f rw) = None)).
Proof.
  intros name sample.
  assert (Hmain : SaveLoad.main (mkWorld f rw)
            = let f' := written f name sample
                          match denied f !! name, faulty f !! name with
                          | Some _, _ => None
                          | None, Some (n, _) => Some (take n sample)
                          | None, None => Some sample
                          end in
              match unreadable f !! name, files f' !! name with
              | None, Some data => Some (data ++ [newline], mkWorld f' rw)
              | _, _ => None
              end).
  { unfold SaveLoad.main, bind, save, loadPage, bind, WriteFile, ReadFile.
    cbn [Title Body fs resp app].
    change (str "TestPage" ++ str ".txt") with name.
    change (str "This is a sample page.") with sample.
    destruct (denied f !! name); [|destruct (faulty f !! name) as [[n e]|]];
      cbn [fs written unreadable files];
      destruct (unreadable f !! name); try reflexivity;
      match goal with
      | |- context [?m !! name] => destruct (m !! name)
      end; reflexivity. }
  rewrite Hmain. cbv zeta. split.
  - intros e ->. reflexivity.
  - intros ->. split; [|split; [|split]].
    + intros -> ->. cbn [written files]. now rewrite lookup_insert_eq.
    + intros n e -> ->. cbn [written files]. now rewrite lookup_insert_eq.
    + intros e old -> Hold. cbn [written files]. now rewrite Hold.
    + intros e -> Hnone. cbn [written files]. now rewrite Hnone.
Qed.

(** ** The properties above at concrete requests *)

Lemma title_Other : is_title (str "Other").
Proof. split; [discriminate|]. repeat constructor. Qed.

(** X8 at the path [/static/site.css]. *)
Lemma serve_static_witness :
  serve (str "data/") plainTemplate fixedStatic StatusMovedPermanently (get (str "/static/site.css"))
        (mkWorld emptyFS freshResponse)
  = fixedStatic (get (str "/static/site.css")) (mkWorld emptyFS freshResponse).
Proof.
  apply (serve_static (str "data/") plainTemplate fixedStatic StatusMovedPermanently
           (get (str "/static/site.css")) (mkWorld emptyFS freshResponse)).
  - reflexivity.
  - vm_compute. reflexivity.
Defined.

(** X9 at the path [/view/], which has no title. *)
Lemma serve_unrouted_witness :
  serve (str "data/") plainTemplate fixedStatic StatusMovedPermanently (get (str "/view/"))
        (mkWorld homeFS freshResponse)
  = http_NotFound (get (str "/view/")) (mkWorld homeFS freshResponse).
Proof.
  apply (serve_unrouted (str "data/") plainTemplate fixedStatic StatusMovedPermanently
           (get (str "/view/")) (mkWorld homeFS freshResponse) (str "/view/")).
  - unfold subtrees_plain. rewrite !elem_of_cons. tauto.
  - reflexivity.
  - vm_compute. reflexivity.
  - intros title (verb & Hv & [Hne _] & Hp). apply routes_cases in Hv.
    destruct Hv as [-> | [-> | ->]]; try discriminate.
    injection Hp as <-. now apply Hne.
Defined.

(** X11 at a request that saves the page [Home]. *)
Lemma serve_writes_only_pages_witness :
  exists w',
    serve (str "data/") plainTemplate fixedStatic StatusMovedPermanently
          (post (str "/save/Home") (str "hello")) (mkWorld homeFS freshResponse)
    = Some (tt, w')
    /\ (fs w' = homeFS
        \/ exists title,
             is_title title
             /\ str "/save/Home" = str "/save/" ++ title
             /\ journal (fs w')
                = (str "data/" ++ title ++ str ".txt",
                   FormValue (post (str "/save/Home") (str "hello")) (str "body"))
                    :: []
             /\ denied (fs w') = ∅
             /\ unreadable (fs w') = ∅
             /\ faulty (fs w') = ∅
             /\ (forall name, name <> str "data/" ++ title ++ str ".txt" ->
                              files (fs w') !! name = files homeFS !! name)).
Proof.
  destruct (serve (str "data/") plainTemplate fixedStatic StatusMovedPermanently
              (post (str "/save/Home") (str "hello")) (mkWorld homeFS freshResponse))
    as [[[] w']|] eqn:Hrun; [|vm_compute in Hrun; discriminate].
  exists w'. split; [reflexivity|].
  apply (serve_writes_only_pages (str "data/") plainTemplate fixedStatic StatusMovedPermanently
           (post (str "/save/Home") (str "hello")) (mkWorld homeFS freshResponse) w').
  - intros r0. apply preserves_Write.
  - exact Hrun.
Defined.

(** X12 at a save of the page [Home]. *)
Lemma save_then_view_witness :
  exists w1 display,
    saveHandler (str "data/") (post (str "/save/Home") (str "See [Other]."))
      (str "Home") (mkWorld emptyFS freshResponse) = Some (tt, w1)
    /\ render (FormValue (post (str "/save/Home") (str "See [Other].")) (str "body"))
       = Some display
    /\ viewHandler (str "data/") plainTemplate (get (str "/view/Home")) (str "Home")
         (mkWorld (fs w1) freshResponse)
       = renderTemplate plainTemplate (str "view")
           (mkPage (str "Home")
              (FormValue (post (str "/save/Home") (str "See [Other].")) (str "body"))
              display)
           (mkWorld (fs w1) freshResponse)
    /\ editHandler (str "data/") plainTemplate (get (str "/edit/Home")) (str "Home")
         (mkWorld (fs w1) freshResponse)
       = renderTemplate plainTemplate (str "edit")
           (mkPage (str "Home")
              (FormValue (post (str "/save/Home") (str "See [Other].")) (str "body"))
              [])
           (mkWorld (fs w1) freshResponse).
Proof.
  apply (save_then_view (str "data/") plainTemplate
           (post (str "/save/Home") (str "See [Other]."))
           (get (str "/view/Home")) (get (str "/edit/Home")) (str "Home") emptyFS);
    reflexivity.
Defined.

(** X13 at a request without a form, over a store that holds the page. *)
Lemma save_without_body_witness :
  exists w1,
    saveHandler (str "data/") (get (str "/save/Home")) (str "Home")
      (mkWorld homeFS freshResponse) = Some (tt, w1)
    /\ files (fs w1) !! (str "data/" ++ str "Home" ++ str ".txt") = Some []
    /\ loadPage (str "data/") (str "Home") (mkWorld (fs w1) freshResponse)
       = Some (Ok (mkPage (str "Home") [] []), mkWorld (fs w1) freshResponse).
Proof.
  apply (save_without_body (str "data/") (get (str "/save/Home")) (str "Home") homeFS);
    reflexivity.
Defined.

(** X16 at the path [/]. *)
Lemma serve_plain_not_found_witness :
  serve_plain [] plainTemplate StatusMovedPermanently (get (str "/")) (mkWorld emptyFS freshResponse)
  = http_NotFound (get (str "/")) (mkWorld emptyFS freshResponse).
Proof.
  apply (serve_plain_not_found [] plainTemplate StatusMovedPermanently (get (str "/"))
           (mkWorld emptyFS freshResponse)).
  - reflexivity.
  - apply (bool_decide_unpack _). vm_compute. exact I.
  - intros t Ht. unfold subtrees_plain in Ht.
    rewrite !elem_of_cons, elem_of_nil in Ht.
    destruct Ht as [-> | [-> | [-> | []]]]; reflexivity.
Defined.

(** X17 at the path [/save/Home]. *)
Lemma serve_plain_routed_witness :
  serve_plain [] plainTemplate StatusMovedPermanently (post (str "/save/Home") (str "hello"))
    (mkWorld emptyFS freshResponse)
  = saveHandler [] (post (str "/save/Home") (str "hello")) (str "Home")
      (mkWorld emptyFS freshResponse).
Proof.
  apply (serve_plain_routed [] plainTemplate StatusMovedPermanently
           (post (str "/save/Home") (str "hello"))
           (mkWorld emptyFS freshResponse) (str "save") (str "Home")).
  - apply routes_cases. right. left. reflexivity.
  - exact title_Home.
  - reflexivity.
Defined.

(** X19 at the body [[Other]]. *)
Lemma links_are_routes_witness :
  (exists pre post, render (str "[Other]") = Some (pre ++ anchor (str "Other") ++ post))
  /\ FindStringSubmatch validPath (str "/view/" ++ str "Other")
     = Some [str "/view/" ++ str "Other"; str "view"; str "Other"]
  /\ (forall r w,
        URL_Path r = str "/view/" ++ str "Other" ->
        serve (str "data/") plainTemplate fixedStatic StatusMovedPermanently r w
        = viewHandler (str "data/") plainTemplate r (str "Other") w).
Proof.
  apply (links_are_routes (str "data/") plainTemplate fixedStatic StatusMovedPermanently
           (str "[Other]") [TMarker (str "Other")] (str "Other")).
  - exact (tokens_marker (str "Other") [] [] title_Other tokens_nil).
  - apply list_elem_of_here.
Defined.
